(** * Steering controllers of Chrono::Vehicle (ChSteeringController.cpp)

    Shallow embedding of the PID, XT, SR and Stanley path-steering
    controllers.  Doubles are modelled as real numbers, [ChVector<>] as a
    record of three reals, and every controller object as a record whose
    fields are the C++ data members; member functions that mutate the
    object return the updated record (explicit state passing). *)

From Stdlib Require Import Reals Lra Lia List ZArith.
Import ListNotations.
Open Scope R_scope.

(** ** Vectors (ChVector) *)

Record vec3 := V3 { vx : R; vy : R; vz : R }.

Definition vzero : vec3 := V3 0 0 0.
Definition vadd (a b : vec3) : vec3 := V3 (vx a + vx b) (vy a + vy b) (vz a + vz b).
Definition vsub (a b : vec3) : vec3 := V3 (vx a - vx b) (vy a - vy b) (vz a - vz b).
Definition vneg (a : vec3) : vec3 := V3 (- vx a) (- vy a) (- vz a).
Definition vscale (s : R) (a : vec3) : vec3 := V3 (s * vx a) (s * vy a) (s * vz a).
Definition vdot (a b : vec3) : R := vx a * vx b + vy a * vy b + vz a * vz b.
Definition vcross (a b : vec3) : vec3 :=
  V3 (vy a * vz b - vz a * vy b) (vz a * vx b - vx a * vz b) (vx a * vy b - vy a * vx b).
Definition vlength (a : vec3) : R := sqrt (vdot a a).

(** Modelled from the spec: [ChVector::Normalize] (chrono/core/ChVector.h,
    not under src/) scales a vector to unit length; a vector of zero length
    is replaced by the X unit vector. *)
Definition vnormalize (a : vec3) : vec3 :=
  if Req_EM_T (vlength a) 0 then V3 1 0 0 else vscale (/ vlength a) a.

(** ** World frame (ChWorldFrame, default ISO orientation)

    Modelled from the spec: ChWorldFrame (not under src/) with its default
    ISO frame: forward is X, vertical is Z; [Project] removes the vertical
    component (projection on the ground plane), [Height] is the vertical
    component. *)
Definition wf_forward : vec3 := V3 1 0 0.
Definition wf_vertical : vec3 := V3 0 0 1.
Definition wf_height (v : vec3) : R := vdot v wf_vertical.
Definition wf_project (v : vec3) : vec3 := vsub v (vscale (wf_height v) wf_vertical).

(** ** Scalar helpers of ChMathematics

    Modelled from the spec (chrono/core/ChMathematics.h, not under src/):
    saturating clamp, sign function and the sine step used by the Stanley
    dead zone (a smooth step from [y1] at [x1] to [y2] at [x2]). *)
Definition ChClamp (value limitMin limitMax : R) : R :=
  if Rlt_dec value limitMin then limitMin
  else if Rlt_dec limitMax value then limitMax
  else value.

Definition ChSignum (x : R) : R :=
  if Rlt_dec 0 x then 1 else if Rlt_dec x 0 then -1 else 0.

Definition CH_C_2PI : R := 2 * PI.
Definition CH_C_DEG_TO_RAD : R := PI / 180.

Definition ChSineStep (x x1 y1 x2 y2 : R) : R :=
  if Rle_dec x x1 then y1
  else if Rle_dec x2 x then y2
  else
    let dx := x2 - x1 in
    let dy := y2 - y1 in
    y1 + dy * (x - x1) / dx - (dy / CH_C_2PI) * sin (CH_C_2PI * (x - x1) / dx).

(** ** Frames and the vehicle as seen by the controllers *)

(** A coordinate frame: origin and the three columns of its rotation. *)
Record frame := Frame { fpos : vec3; fxaxis : vec3; fyaxis : vec3; fzaxis : vec3 }.

Definition TransformPointLocalToParent (f : frame) (p : vec3) : vec3 :=
  vadd (fpos f) (vadd (vscale (vx p) (fxaxis f))
                      (vadd (vscale (vy p) (fyaxis f)) (vscale (vz p) (fzaxis f)))).

(** The vehicle queries used by the controllers: chassis reference frame,
    [GetPos], [GetPointVelocity(0,0,0)] and [GetSpeed]. *)
Record vehicle := Vehicle {
  chassis_frame : frame;
  veh_pos : vec3;
  veh_vel : vec3;
  veh_speed : R }.

(** ** Base class ChSteeringController

    Data members (the CSV logger [m_csv]/[m_collect] only writes a log and
    is left out). *)
Record steer_ctl := SteerCtl {
  m_dist : R;
  m_sentinel : vec3;
  m_target : vec3;
  m_err : R;
  m_erri : R;
  m_errd : R;
  m_Kp : R;
  m_Ki : R;
  m_Kd : R }.

(** The sentinel point: look-ahead distance along the chassis forward axis. *)
Definition sentinel_at (dist : R) (veh : vehicle) : vec3 :=
  TransformPointLocalToParent (chassis_frame veh) (vscale dist wf_forward).

(** Signed lateral error, lines 102-116 (shared by PID, XT and Stanley). *)
Definition lateral_error (sentinel target pos : vec3) : R :=
  let err_vec := wf_project (vsub target sentinel) in
  let sentinel_vec := wf_project (vsub sentinel pos) in
  let target_vec := wf_project (vsub target pos) in
  let temp := vdot (vcross sentinel_vec target_vec) wf_vertical in
  ChSignum temp * vlength err_vec.

(** [ChSteeringController()]: all gains zero, look-ahead distance zero. *)
Definition ChSteeringController_default : steer_ctl :=
  SteerCtl 0 vzero vzero 0 0 0 0 0 0.

(** The parsed JSON document: [None] when [d.IsNull()]. *)
Record base_doc := BaseDoc { doc_Kp : R; doc_Ki : R; doc_Kd : R; doc_lookahead : R }.

(** [ChSteeringController(filename)].  The members absent from the
    initializer list ([m_dist], [m_Kp], [m_Ki], [m_Kd]) keep whatever the
    object's storage [mem] held before construction. *)
Definition ChSteeringController_json (mem : steer_ctl) (d : option base_doc) : steer_ctl :=
  let c := SteerCtl (m_dist mem) vzero vzero 0 0 0 (m_Kp mem) (m_Ki mem) (m_Kd mem) in
  match d with
  | None => c
  | Some d => SteerCtl (doc_lookahead d) vzero vzero 0 0 0 (doc_Kp d) (doc_Ki d) (doc_Kd d)
  end.

Definition ChSteeringController_Reset (c : steer_ctl) (veh : vehicle) : steer_ctl :=
  SteerCtl (m_dist c) (sentinel_at (m_dist c) veh) (m_target c) 0 0 0
           (m_Kp c) (m_Ki c) (m_Kd c).

(** [ChSteeringController::Advance]; the virtual [CalcTargetLocation] is the
    path tracker's answer [calc_target] at the sentinel. *)
Definition ChSteeringController_Advance (c : steer_ctl) (veh : vehicle)
    (calc_target : vec3 -> vec3) (step : R) : steer_ctl * R :=
  let sentinel := sentinel_at (m_dist c) veh in
  let target := calc_target sentinel in
  let err := lateral_error sentinel target (veh_pos veh) in
  let errd := (err - m_err c) / step in
  let erri := m_erri c + (err + m_err c) * step / 2 in
  let c' := SteerCtl (m_dist c) sentinel target err erri errd (m_Kp c) (m_Ki c) (m_Kd c) in
  (c', m_Kp c' * m_err c' + m_Ki c' * m_erri c' + m_Kd c' * m_errd c').

(** ** Filters (utils::ChFilterPT1, utils::ChFilterPDT1)

    Modelled from the spec: the filter classes are not under src/; the spec
    describes them only as lag filters with [Config(step, time_constant)]
    and [Filter(input) -> output].  They are kept abstract: every result
    below holds for every implementation of them. *)
Section Filters.
Context {pt1_state pdt1_state : Type}.
Variable pt1_config : R -> R -> pt1_state.
Variable pt1_filter : pt1_state -> R -> pt1_state * R.
Variable pdt1_config : R -> R -> R -> R -> pdt1_state.
Variable pdt1_filter : pdt1_state -> R -> pdt1_state * R.

(** *** ChPathSteeringControllerXT *)

Record xt_ctl := XtCtl {
  xt_base : steer_ctl;
  xt_R_threshold : R;
  xt_max_wheel_turn_angle : R;
  xt_filters_initialized : bool;
  xt_T1_delay : R;
  xt_Kp : R;
  xt_Wy : R;
  xt_Wh : R;
  xt_Wa : R;
  xt_res : R;
  xt_vel : vec3;
  xt_pcurvature : R;
  xt_ptangent : vec3;
  xt_pnormal : vec3;
  xt_pbinormal : vec3;
  xt_HeadErrDelay : pt1_state;
  xt_AckermannAngleDelay : pt1_state;
  xt_PathErrCtl : pdt1_state }.

(** The path tracker's [calcClosestPoint(sentinel, tnb, curvature)]. *)
Definition tracker := vec3 -> frame * R.

(** Constructor (both constructors share this initialisation; the base
    object is default-constructed).  [mem] is the storage of the members
    outside the initializer list. *)
Definition ChPathSteeringControllerXT_ctor (mem : xt_ctl) (max_wheel_turn_angle : R) : xt_ctl :=
  XtCtl ChSteeringController_default 100000
        (if Rlt_dec 0 max_wheel_turn_angle then max_wheel_turn_angle else 25 * CH_C_DEG_TO_RAD)
        false (30 / 1000) (4 / 10) 1 1 1 0
        (xt_vel mem) (xt_pcurvature mem) (xt_ptangent mem) (xt_pnormal mem) (xt_pbinormal mem)
        (xt_HeadErrDelay mem) (xt_AckermannAngleDelay mem) (xt_PathErrCtl mem).

(** Lines 274-310. Returns the updated [m_vel] and the angle. *)
Definition xt_CalcHeadingError (m_vel a b : vec3) : vec3 * R :=
  let m_vel := vnormalize (wf_project m_vel) in
  let speed := vlength m_vel in
  let '(a, b) :=
    if Rlt_dec speed 1
    then (vnormalize (wf_project a), vnormalize (wf_project b))
    else (m_vel, vnormalize (wf_project b)) in
  let ab := vsub a b in
  let ltest := vlength ab in
  let vpc := if Rlt_dec ltest 1 then vcross a b else vcross a (vneg b) in
  (m_vel, asin (wf_height vpc)).

(** Lines 312-336. *)
Definition xt_CalcCurvatureCode (c : xt_ctl) (a b : vec3) : Z :=
  let a := vnormalize (wf_project a) in
  let b := vnormalize (wf_project b) in
  let ab := vsub a b in
  let ltest := vlength ab in
  if Rle_dec (xt_pcurvature c) (1 / xt_R_threshold c) then 0%Z
  else if Rlt_dec ltest 1 then 1%Z
  else (-1)%Z.

(** Lines 338-349. *)
Definition xt_CalcAckermannAngle (c : xt_ctl) : R :=
  sin (xt_res c * xt_max_wheel_turn_angle c).

(** Lines 352-367: sentinel, velocity, lazy filter configuration and
    [CalcTargetLocation] (lines 252-264). *)
Definition xt_prepare (c : xt_ctl) (veh : vehicle) (trk : tracker) (step : R) : xt_ctl :=
  let b := xt_base c in
  let sentinel := sentinel_at (m_dist b) veh in
  let vel := veh_vel veh in
  let '(hd, ad, pe, init) :=
    if xt_filters_initialized c
    then (xt_HeadErrDelay c, xt_AckermannAngleDelay c, xt_PathErrCtl c, true)
    else (pt1_config step (xt_T1_delay c), pt1_config step (xt_T1_delay c),
          pdt1_config step (3 / 10) (15 / 100) (xt_Kp c), true) in
  let '(tnb, curv) := trk sentinel in
  let b' := SteerCtl (m_dist b) sentinel (fpos tnb) (m_err b) (m_erri b) (m_errd b)
                     (m_Kp b) (m_Ki b) (m_Kd b) in
  XtCtl b' (xt_R_threshold c) (xt_max_wheel_turn_angle c) init (xt_T1_delay c)
        (xt_Kp c) (xt_Wy c) (xt_Wh c) (xt_Wa c) (xt_res c)
        vel curv (fxaxis tnb) (fyaxis tnb) (fzaxis tnb) hd ad pe.

(** Lines 374-407: the three filtered channels and their weighted sum.
    Returns the filter states, the updated [m_vel] and [res]. *)
Definition xt_blend (c : xt_ctl) (veh : vehicle)
    : pdt1_state * pt1_state * pt1_state * vec3 * R :=
  let b := xt_base c in
  let y_err := lateral_error (m_sentinel b) (m_target b) (veh_pos veh) in
  let '(pe, y_err_out) := pdt1_filter (xt_PathErrCtl c) y_err in
  let veh_head := fxaxis (chassis_frame veh) in
  let '(vel, h_err) := xt_CalcHeadingError (xt_vel c) veh_head (xt_ptangent c) in
  let '(hd, h_err_out) := pt1_filter (xt_HeadErrDelay c) h_err in
  let a_err := xt_CalcAckermannAngle c in
  let '(ad, a_err_out) := pt1_filter (xt_AckermannAngleDelay c) a_err in
  let res := xt_Wy c * y_err_out + xt_Wh c * h_err_out + xt_Wa c * a_err_out in
  (pe, hd, ad, vel, res).

(** Lines 418-429: the counter-steer constraint. *)
Definition xt_counter_steer (crvcode : Z) (res : R) : R :=
  match crvcode with
  | 1%Z => ChClamp res 0 1
  | (-1)%Z => ChClamp res (-1) 0
  | _ => ChClamp res (-1) 1
  end.

(** [ChPathSteeringControllerXT::Advance]. *)
Definition ChPathSteeringControllerXT_Advance (c : xt_ctl) (veh : vehicle)
    (trk : tracker) (step : R) : xt_ctl * R :=
  let c1 := xt_prepare c veh trk step in
  let '(pe, hd, ad, vel, res) := xt_blend c1 veh in
  let veh_left := fyaxis (chassis_frame veh) in
  let crvcode := xt_CalcCurvatureCode c1 veh_left (xt_pnormal c1) in
  let m_res := xt_counter_steer crvcode res in
  (XtCtl (xt_base c1) (xt_R_threshold c1) (xt_max_wheel_turn_angle c1)
         (xt_filters_initialized c1) (xt_T1_delay c1) (xt_Kp c1)
         (xt_Wy c1) (xt_Wh c1) (xt_Wa c1) m_res vel (xt_pcurvature c1)
         (xt_ptangent c1) (xt_pnormal c1) (xt_pbinormal c1) hd ad pe,
   m_res).

(** [ChPathSteeringControllerXT::Reset]: base reset (the tracker reset has
    no effect on the controller's members). *)
Definition ChPathSteeringControllerXT_Reset (c : xt_ctl) (veh : vehicle) : xt_ctl :=
  XtCtl (ChSteeringController_Reset (xt_base c) veh) (xt_R_threshold c)
        (xt_max_wheel_turn_angle c) (xt_filters_initialized c) (xt_T1_delay c)
        (xt_Kp c) (xt_Wy c) (xt_Wh c) (xt_Wa c) (xt_res c) (xt_vel c)
        (xt_pcurvature c) (xt_ptangent c) (xt_pnormal c) (xt_pbinormal c)
        (xt_HeadErrDelay c) (xt_AckermannAngleDelay c) (xt_PathErrCtl c).

(** *** ChPathSteeringControllerStanley *)

Record stanley_ctl := StanleyCtl {
  st_base : steer_ctl;
  st_delayFilter : option pt1_state;   (* [None] is [nullptr] *)
  st_isClosedPath : bool;
  st_delta : R;
  st_delta_max : R;
  st_umin : R;
  st_Treset : R;
  st_deadZone : R;
  st_Tdelay : R;
  st_pcurvature : R;
  st_ptangent : vec3 }.

(** Lines 769-777. *)
Definition stanley_CalcTargetLocation (trk : tracker) (sentinel : vec3) : vec3 * R * vec3 :=
  let '(tnb, curv) := trk sentinel in (fpos tnb, curv, fxaxis tnb).

(** Lines 779-793. *)
Definition stanley_CalcHeadingError (a b : vec3) : R :=
  let a := vnormalize (wf_project a) in
  let b := vnormalize (wf_project b) in
  let vpc := vcross a b in
  asin (wf_height vpc).

(** Lines 740-743: the dead-zone weight of the lateral error. *)
Definition stanley_dead_zone_weight (deadZone err : R) : R :=
  if Rlt_dec 0 deadZone then ChSineStep (Rabs err) deadZone 0 (2 * deadZone) 1 else 1.

(** Lines 739-743: the lateral error weighted by the dead zone. *)
Definition stanley_effective_error (deadZone err : R) : R :=
  let w := stanley_dead_zone_weight deadZone err in
  err * w.

(** [ChPathSteeringControllerStanley::Advance], before the delay filter:
    the updated object (filter pointer created by the first call) and the
    clamped command [steer]. *)
Definition stanley_control (c : stanley_ctl) (veh : vehicle) (trk : tracker) (step : R)
    : stanley_ctl * R :=
  let delay := match st_delayFilter c with
               | None => pt1_config step (st_Tdelay c)
               | Some f => f
               end in
  let b := st_base c in
  let u := veh_speed veh in
  let sentinel := sentinel_at (m_dist b) veh in
  let '(target, curv, ptangent) := stanley_CalcTargetLocation trk sentinel in
  let err := lateral_error sentinel target (veh_pos veh) in
  let err := stanley_effective_error (st_deadZone c) err in
  let err_dot := - u * sin (atan (m_Kp b * err / ChClamp u (st_umin c) u)) in
  let veh_head := fxaxis (chassis_frame veh) in
  let path_head := ptangent in
  let erri := m_erri b + (err + m_err b) * step / 2 in
  let h_err := stanley_CalcHeadingError veh_head path_head in
  let delta := h_err + atan (m_Kp b * err / ChClamp u (st_umin c) u)
               + m_Kd b * err_dot + m_Ki b * erri in
  let steer := ChClamp (delta / st_delta_max c) (-1) 1 in
  let Treset := st_Treset c - step in
  let '(Treset, merr) := if Rle_dec Treset 0 then (30, 0) else (Treset, err) in
  let b' := SteerCtl (m_dist b) sentinel target merr erri (m_errd b)
                     (m_Kp b) (m_Ki b) (m_Kd b) in
  (StanleyCtl b' (Some delay) (st_isClosedPath c) delta (st_delta_max c) (st_umin c)
              Treset (st_deadZone c) (st_Tdelay c) curv ptangent,
   steer).

(** [ChPathSteeringControllerStanley::Advance]: the command is passed
    through the reaction-delay filter. *)
Definition ChPathSteeringControllerStanley_Advance (c : stanley_ctl) (veh : vehicle)
    (trk : tracker) (step : R) : stanley_ctl * R :=
  let '(c1, steer) := stanley_control c veh trk step in
  let f := match st_delayFilter c1 with Some f => f | None => pt1_config step (st_Tdelay c1) end in
  let '(f', out) := pt1_filter f steer in
  (StanleyCtl (st_base c1) (Some f') (st_isClosedPath c1) (st_delta c1) (st_delta_max c1)
              (st_umin c1) (st_Treset c1) (st_deadZone c1) (st_Tdelay c1)
              (st_pcurvature c1) (st_ptangent c1),
   out).

End Filters.

(** ** ChPathSteeringControllerSR *)

Record sr_ctl := SrCtl {
  sr_base : steer_ctl;
  sr_isClosedPath : bool;
  sr_Klat : R;
  sr_Kug : R;
  sr_Tp : R;
  sr_L : R;
  sr_delta : R;
  sr_delta_max : R;
  sr_umin : R;
  sr_idx_curr : nat;
  S_l : list vec3;
  R_l : list vec3;
  R_lu : list vec3 }.

(** Lines 488-527; [pts] are the path's points [m_path->getPoint(i)].
    The code is defined only on a closed path of at least one point and on
    an open path of at least two points ([sr_path_ok]): on an empty path
    [np - 1] wraps around as [size_t] and the loop runs out of bounds, and
    on an open one-point path [S_l[np - 2]] is read out of bounds.  The
    lists computed here for such paths have no counterpart in the code;
    every concrete SR input below uses a path accepted by [sr_path_ok]. *)
Definition sr_CalcPathPoints (isClosedPath : bool) (pts : list vec3)
    : list vec3 * list vec3 * list vec3 :=
  let np := length pts in
  let Sl := pts in
  let P i := nth i Sl vzero in
  let Rl := map (fun i =>
                   if Nat.eqb i (np - 1)
                   then (if isClosedPath then vsub (P 0%nat) (P (np - 1)%nat)
                         else vsub (P (np - 1)%nat) (P (np - 2)%nat))
                   else vsub (P (S i)) (P i))
                (seq 0 np) in
  (Sl, Rl, map vnormalize Rl).

(** The paths on which [CalcPathPoints] stays within bounds. *)
Definition sr_path_ok (isClosedPath : bool) (pts : list vec3) : bool :=
  if isClosedPath then Nat.leb 1 (length pts) else Nat.leb 2 (length pts).

(** [ChPathSteeringControllerSR(path, isClosedPath, max_wheel_turn_angle,
    axle_space)]; the base object is default-constructed. *)
Definition ChPathSteeringControllerSR_ctor (pts : list vec3) (isClosedPath : bool)
    (max_wheel_turn_angle axle_space : R) : sr_ctl :=
  let '(Sl, Rl, Rlu) := sr_CalcPathPoints isClosedPath pts in
  SrCtl ChSteeringController_default isClosedPath 0 0 (1 / 2) axle_space 0
        max_wheel_turn_angle 2 0 Sl Rl Rlu.

(** The parsed JSON document of the SR controller; [None] when
    [d.IsNull()]. *)
Record sr_doc := SrDoc { doc_Klat : R; doc_Kug : R; doc_PreviewTime : R }.

(** [ChPathSteeringControllerSR(filename, path, ...)].  [m_Klat], [m_Kug]
    and [m_Tp] are not in the initializer list: they keep what the
    storage [mem] held unless the document sets them. *)
Definition ChPathSteeringControllerSR_json (mem : sr_ctl) (d : option sr_doc)
    (pts : list vec3) (isClosedPath : bool) (max_wheel_turn_angle axle_space : R) : sr_ctl :=
  let '(Sl, Rl, Rlu) := sr_CalcPathPoints isClosedPath pts in
  let '(Klat, Kug, Tp) :=
    match d with
    | None => (sr_Klat mem, sr_Kug mem, sr_Tp mem)
    | Some d => (doc_Klat d, doc_Kug d, doc_PreviewTime d)
    end in
  SrCtl ChSteeringController_default isClosedPath Klat Kug Tp axle_space 0
        max_wheel_turn_angle 1 0 Sl Rl Rlu.

(** Lines 529-535. *)
Definition ChPathSteeringControllerSR_Reset (c : sr_ctl) (veh : vehicle) : sr_ctl :=
  SrCtl (ChSteeringController_Reset (sr_base c) veh) (sr_isClosedPath c) 0 0
        (sr_Tp c) (sr_L c) (sr_delta c) (sr_delta_max c) (sr_umin c) (sr_idx_curr c)
        (S_l c) (R_l c) (R_lu c).

(** Lines 537-540. *)
Definition ChPathSteeringControllerSR_SetGains (c : sr_ctl) (Klat Kug : R) : sr_ctl :=
  SrCtl (sr_base c) (sr_isClosedPath c) (Rabs Klat) (ChClamp Kug 0 5)
        (sr_Tp c) (sr_L c) (sr_delta c) (sr_delta_max c) (sr_umin c) (sr_idx_curr c)
        (S_l c) (R_l c) (R_lu c).

(** Modelled from the spec: [ChMatrix33<>(theta, ChWorldFrame::Vertical())]
    (not under src/) is the rotation by [theta] about the vertical axis. *)
Definition rot_vertical (theta : R) (v : vec3) : vec3 :=
  V3 (cos theta * vx v - sin theta * vy v) (sin theta * vx v + cos theta * vy v) (vz v).

(** Lines 558-571: the sentinel on the predicted arc. *)
Definition sr_sentinel (c : sr_ctl) (veh : vehicle) : vec3 :=
  let g := 981 / 100 in
  let u := veh_speed veh in
  let n_g := vnormalize (wf_project (fyaxis (chassis_frame veh))) in
  let ut := if Rlt_dec (sr_umin c) u then u else sr_umin c in
  let factor := ut * sr_Tp c in
  if Req_EM_T (sr_delta c) 0
  then TransformPointLocalToParent (chassis_frame veh) (vscale factor wf_forward)
  else
    let R := (sr_L c + CH_C_DEG_TO_RAD * sr_Kug c * u * u / g) / sr_delta c in
    let theta := u * sr_Tp c / R in
    vadd (TransformPointLocalToParent (chassis_frame veh) (vscale factor wf_forward))
         (vscale R (vsub n_g (rot_vertical theta n_g))).

(** The quantities of lines 573-576 and 584-593 for segment [idx]. *)
Definition sr_probe (c : sr_ctl) (sentinel : vec3) (idx : nat) : vec3 * R * R :=
  let Pt := vsub sentinel (nth idx (S_l c) vzero) in
  let rt := vlength (nth idx (R_l c) vzero) in
  let t := Rabs (vdot Pt (nth idx (R_lu c) vzero)) in
  (Pt, rt, t).

(** The [while (t > rt)] loop of lines 578-596.  On a closed path the loop
    need not terminate; [fuel] bounds the iterations and [None] stands for
    a loop still running when it is exhausted. *)
Fixpoint sr_seek (fuel : nat) (c : sr_ctl) (sentinel : vec3) (idx : nat)
    (Pt : vec3) (rt t : R) : option (nat * vec3 * R) :=
  if Rlt_dec rt t then
    let idx := S idx in
    if sr_isClosedPath c then
      match fuel with
      | O => None
      | S fuel =>
          let idx := if Nat.eqb idx (length (S_l c)) then O else idx in
          let '(Pt, rt, t) := sr_probe c sentinel idx in
          sr_seek fuel c sentinel idx Pt rt t
      end
    else
      let idx := if Nat.eqb idx (length (S_l c)) then (length (S_l c) - 1)%nat else idx in
      let '(Pt, rt, t) := sr_probe c sentinel idx in
      Some (idx, Pt, t)
  else Some (idx, Pt, t).

(** [ChPathSteeringControllerSR::Advance]. *)
Definition ChPathSteeringControllerSR_Advance (fuel : nat) (c : sr_ctl) (veh : vehicle)
    : option (sr_ctl * R) :=
  let u := veh_speed veh in
  let sentinel := sr_sentinel c veh in
  let '(Pt0, rt0, t0) := sr_probe c sentinel (sr_idx_curr c) in
  let found :=
    if Rle_dec rt0 t0 then sr_seek fuel c sentinel (sr_idx_curr c) Pt0 rt0 t0
    else Some (sr_idx_curr c, Pt0, t0) in
  match found with
  | None => None
  | Some (idx, Pt, t) =>
      let target := vadd (nth idx (S_l c) vzero) (vscale t (nth idx (R_lu c) vzero)) in
      let n_lu := vcross (nth idx (R_lu c) vzero) wf_vertical in
      let err := vdot Pt n_lu in
      let delta :=
        if Rle_dec (sr_umin c) u
        then ChClamp (sr_delta c + sr_Klat c * err) (- sr_delta_max c) (sr_delta_max c)
        else sr_delta c in
      let b := sr_base c in
      let b' := SteerCtl (m_dist b) sentinel target err (m_erri b) (m_errd b)
                         (m_Kp b) (m_Ki b) (m_Kd b) in
      Some (SrCtl b' (sr_isClosedPath c) (sr_Klat c) (sr_Kug c) (sr_Tp c) (sr_L c)
                  delta (sr_delta_max c) (sr_umin c) idx (S_l c) (R_l c) (R_lu c),
            delta / sr_delta_max c)
  end.

(** A run of successive [Advance] calls, one vehicle state per step. *)
Fixpoint sr_run (fuel : nat) (c : sr_ctl) (vehs : list vehicle) : option sr_ctl :=
  match vehs with
  | [] => Some c
  | veh :: vehs =>
      match ChPathSteeringControllerSR_Advance fuel c veh with
      | None => None
      | Some (c', _) => sr_run fuel c' vehs
      end
  end.

(** ** Stanley constructor *)

(** Both constructors of ChPathSteeringControllerStanley: base object
    default-constructed, [SetGains(0, 0, 0)], no delay filter yet. *)
Definition ChPathSteeringControllerStanley_ctor {pt1_state : Type}
    (mem : @stanley_ctl pt1_state) (isClosedPath : bool) (max_wheel_turn_angle : R)
    : @stanley_ctl pt1_state :=
  StanleyCtl ChSteeringController_default None isClosedPath 0 max_wheel_turn_angle 1
             30 0 (4 / 10) (st_pcurvature mem) (st_ptangent mem).

(** ** The heading error as the spec states it

    The reading of the spec's sentence on [CalcHeadingError]: the motion
    direction is the velocity direction when the speed is at least 1 and
    the chassis forward axis otherwise, both projected and normalized. *)
Definition heading_error_as_specified (vel a b : vec3) : R :=
  let speed := vlength vel in
  let a := if Rle_dec 1 speed then vnormalize (wf_project vel) else vnormalize (wf_project a) in
  let b := vnormalize (wf_project b) in
  let vpc := if Rlt_dec (vlength (vsub a b)) 1 then vcross a b else vcross a (vneg b) in
  asin (wf_height vpc).

(** ** Concrete Stanley inputs *)

(** A Stanley controller whose integral holds 1, previous error 0, timer
    [1/100], no dead zone, maximum steering angle 1. *)
Definition stanley_expiring {pt1_state : Type} : @stanley_ctl pt1_state :=
  StanleyCtl (SteerCtl 0 vzero vzero 0 1 0 0 0 0) None false 0 1 1 (1 / 100) 0 (4 / 10)
             0 vzero.

(** A tracker whose closest point is the query point itself. *)
Definition trk_on_sentinel : tracker :=
  fun s => (Frame s (V3 1 0 0) (V3 0 1 0) (V3 0 0 1), 0).

(** ** SR preview time *)

(** [ChPathSteeringControllerSR::SetPreviewTime], lines 542-544. *)
Definition ChPathSteeringControllerSR_SetPreviewTime (c : sr_ctl) (Tp : R) : sr_ctl :=
  SrCtl (sr_base c) (sr_isClosedPath c) (sr_Klat c) (sr_Kug c) (ChClamp Tp (2 / 10) 4)
        (sr_L c) (sr_delta c) (sr_delta_max c) (sr_umin c) (sr_idx_curr c)
        (S_l c) (R_l c) (R_lu c).

(** The sum of a list of vectors. *)
Definition vsum (l : list vec3) : vec3 := fold_right vadd vzero l.

(** ** Data collection (lines 131-155)

    [m_csv] is the CSV table, [None] while the writer has not been created
    ([nullptr]); [m_collect] is the collection flag.  While collecting,
    every [Advance] appends the row (time, [m_target], [m_sentinel]). *)
Definition csv_row : Type := (R * vec3 * vec3)%type.

Record data_log := DataLog { m_csv : option (list csv_row); m_collect : bool }.

(** The constructors' initializer lists: [m_csv(nullptr), m_collect(false)]. *)
Definition data_log_init : data_log := DataLog None false.

(** Lines 131-143: the writer is created by the first call only. *)
Definition StartDataCollection (l : data_log) : data_log :=
  if m_collect l then l
  else match m_csv l with
       | None => DataLog (Some []) true
       | Some rows => DataLog (Some rows) true
       end.

(** Lines 145-148. *)
Definition StopDataCollection (l : data_log) : data_log := DataLog (m_csv l) false.

(** Lines 150-154: the table written to the file; [None] when nothing is
    written. *)
Definition WriteOutputFile (l : data_log) : option (list csv_row) := m_csv l.

(** The logging statement of every [Advance] (e.g. lines 97-100,
    [*m_csv << ...]); [None] stands for a dereference of a null [m_csv]. *)
Definition log_advance (l : data_log) (row : csv_row) : option data_log :=
  if m_collect l then
    match m_csv l with
    | Some rows => Some (DataLog (Some (rows ++ [row])) true)
    | None => None
    end
  else Some l.

(** A sequence of calls on the logger of one controller. *)
Inductive log_event := LogStart | LogStop | LogAdvance (row : csv_row).

Fixpoint run_log (l : data_log) (evs : list log_event) : option data_log :=
  match evs with
  | [] => Some l
  | LogStart :: evs => run_log (StartDataCollection l) evs
  | LogStop :: evs => run_log (StopDataCollection l) evs
  | LogAdvance row :: evs =>
      match log_advance l row with
      | None => None
      | Some l' => run_log l' evs
      end
  end.

(** ** Concrete SR inputs *)

(** A closed SR path through (0,0,0) and (1,0,0) with the segments and
    directions [CalcPathPoints] gives it, steering angle 0. *)
Definition sr_loop : sr_ctl :=
  SrCtl ChSteeringController_default true 0 0 (1 / 2) 1 0 (1 / 2) 2 0
        [V3 0 0 0; V3 1 0 0] [V3 1 0 0; V3 (-1) 0 0] [V3 1 0 0; V3 (-1) 0 0].

(** A vehicle at rest at (9,0,0) heading along +X. *)
Definition veh_far : vehicle :=
  Vehicle (Frame (V3 9 0 0) (V3 1 0 0) (V3 0 1 0) (V3 0 0 1)) (V3 9 0 0) vzero 0.

(** A Stanley controller whose delay filter exists. *)
Definition stanley_running : @stanley_ctl unit :=
  StanleyCtl (SteerCtl 0 vzero vzero 0 0 0 0 0 0) (Some tt) false 0 1 1 30 0 (4 / 10) 0 vzero.

(** ** An example lag filter

    Not a model of [utils::ChFilterPT1], whose code is not under src/: the
    backward-Euler step of a first-order lag with time constant [T],
    [y' = y + step/(T + step) * (x - y)], starting from [y = 0].  It is an
    instance of the filter hypotheses under which the Stanley command is
    bounded (C1). *)
Record lag_state := LagState { lag_gain : R; lag_y : R }.

Definition lag_config (step T : R) : lag_state := LagState (step / (T + step)) 0.

Definition lag_filter (s : lag_state) (x : R) : lag_state * R :=
  let y := lag_y s + lag_gain s * (x - lag_y s) in (LagState (lag_gain s) y, y).

Definition lag_ok (s : lag_state) : Prop := 0 <= lag_gain s <= 1 /\ -1 <= lag_y s <= 1.

(** * Proofs *)

(** ** Arithmetic helpers *)

Lemma sqrt_of_square (a b : R) : 0 <= b -> a = b * b -> sqrt a = b.
Proof. intros Hb ->. apply sqrt_square; exact Hb. Qed.

Lemma ChClamp_range (v lo hi : R) : lo <= hi -> lo <= ChClamp v lo hi <= hi.
Proof.
  intros H; unfold ChClamp.
  destruct (Rlt_dec v lo); [lra|].
  destruct (Rlt_dec hi v); lra.
Qed.

Lemma ChClamp_inside (v lo hi : R) : lo <= v <= hi -> ChClamp v lo hi = v.
Proof.
  intros H; unfold ChClamp.
  destruct (Rlt_dec v lo); [lra|].
  destruct (Rlt_dec hi v); lra.
Qed.

Lemma abs_le_bounds (x a : R) : Rabs x <= a -> - a <= x <= a.
Proof. unfold Rabs; destruct (Rcase_abs x); intros; lra. Qed.

Ltac vec_simpl :=
  unfold sentinel_at, TransformPointLocalToParent, wf_project, wf_height, vlength,
         vadd, vsub, vneg, vscale, vdot, vcross, wf_vertical, wf_forward, vzero in *;
  cbn [vx vy vz fpos fxaxis fyaxis fzaxis chassis_frame veh_pos veh_vel veh_speed
       fst snd] in *.

(** ** C4: the PID update of the base controller *)

(** C4. One [Advance] of the base controller sets the error to the current
    lateral error [err], the derivative to [(err - err_prev)/step], adds
    [(err + err_prev)*step/2] to the integral and returns
    [Kp*err + Ki*erri + Kd*errd] with the updated states. *)
Theorem base_advance_pid_update (c : steer_ctl) (veh : vehicle)
    (calc_target : vec3 -> vec3) (step : R) :
  let sentinel := sentinel_at (m_dist c) veh in
  let err := lateral_error sentinel (calc_target sentinel) (veh_pos veh) in
  let '(c', out) := ChSteeringController_Advance c veh calc_target step in
  m_err c' = err /\
  m_errd c' = (err - m_err c) / step /\
  m_erri c' = m_erri c + (err + m_err c) * step / 2 /\
  out = m_Kp c * m_err c' + m_Ki c * m_erri c' + m_Kd c * m_errd c'.
Proof.
  cbv zeta; unfold ChSteeringController_Advance; cbn.
  repeat split; reflexivity.
Qed.

(** ** Concrete inputs *)

(** A vehicle at the origin heading along +X, at rest. *)
Definition veh_origin : vehicle :=
  Vehicle (Frame vzero (V3 1 0 0) (V3 0 1 0) (V3 0 0 1)) vzero vzero 0.

(** The PID controller loaded from a document with [Kp = 1], [Ki = Kd = 0]
    and look-ahead distance 1. *)
Definition pid_loaded : steer_ctl :=
  ChSteeringController_json ChSteeringController_default (Some (BaseDoc 1 0 0 1)).

(** The lateral error is 2 when the target lies 2 to the left of the
    sentinel (1, 0, 0). *)
Lemma lateral_error_left_2 :
  lateral_error (V3 1 0 0) (V3 1 2 0) vzero = 2.
Proof.
  unfold lateral_error, ChSignum; vec_simpl.
  destruct (Rlt_dec 0 _) as [_|Hn]; [|exfalso; apply Hn; lra].
  rewrite (sqrt_of_square _ 2); lra.
Qed.


(** ** XT controller *)

Lemma xt_counter_steer_cases (code : Z) (res : R) :
  (code = 1%Z -> xt_counter_steer code res = ChClamp res 0 1 /\
                 0 <= xt_counter_steer code res <= 1) /\
  (code = (-1)%Z -> xt_counter_steer code res = ChClamp res (-1) 0 /\
                    -1 <= xt_counter_steer code res <= 0) /\
  (code = 0%Z -> xt_counter_steer code res = ChClamp res (-1) 1 /\
                 -1 <= xt_counter_steer code res <= 1).
Proof.
  split; [|split]; intros ->; cbn; (split; [reflexivity | apply ChClamp_range; lra]).
Qed.

Lemma xt_counter_steer_range (code : Z) (res : R) : -1 <= xt_counter_steer code res <= 1.
Proof.
  unfold xt_counter_steer.
  destruct code as [|p|p]; [| destruct p | destruct p];
    try (pose proof (ChClamp_range res (-1) 1 ltac:(lra)); lra);
    first [pose proof (ChClamp_range res 0 1 ltac:(lra)); lra
          |pose proof (ChClamp_range res (-1) 0 ltac:(lra)); lra].
Qed.

Lemma sin_scaled_bound (r M : R) :
  -1 <= r <= 1 -> 0 <= M <= PI / 2 -> Rabs (sin (r * M)) <= sin M.
Proof.
  intros Hr HM.
  pose proof PI_RGT_0 as Hpi.
  assert (Hx : - M <= r * M <= M) by nra.
  destruct (Rle_lt_dec 0 (r * M)) as [H0|H0].
  - rewrite Rabs_right by (apply Rle_ge, sin_ge_0; lra).
    apply sin_incr_1; lra.
  - replace (r * M) with (- (- (r * M))) by ring.
    rewrite sin_neg, Rabs_Ropp.
    rewrite Rabs_right by (apply Rle_ge, sin_ge_0; lra).
    apply sin_incr_1; lra.
Qed.

Section XTProofs.
Context {pt1_state pdt1_state : Type}.
Variable pt1_config : R -> R -> pt1_state.
Variable pt1_filter : pt1_state -> R -> pt1_state * R.
Variable pdt1_config : R -> R -> R -> R -> pdt1_state.
Variable pdt1_filter : pdt1_state -> R -> pdt1_state * R.

Let XT_Advance := ChPathSteeringControllerXT_Advance pt1_config pt1_filter pdt1_config pdt1_filter.

Lemma xt_advance_res (c : @xt_ctl pt1_state pdt1_state) veh trk step :
  let c1 := xt_prepare pt1_config pdt1_config c veh trk step in
  let res := snd (xt_blend pt1_filter pdt1_filter c1 veh) in
  let code := xt_CalcCurvatureCode c1 (fyaxis (chassis_frame veh)) (xt_pnormal c1) in
  let '(c', out) := XT_Advance c veh trk step in
  out = xt_res c' /\ out = xt_counter_steer code res.
Proof.
  cbv zeta; unfold XT_Advance, ChPathSteeringControllerXT_Advance.
  destruct (xt_blend _ _ _ _) as [[[[pe hd] ad] vel] res]; cbn.
  split; reflexivity.
Qed.

(** C5. The XT output is the blended sum [res] clamped according to the
    curvature code: to [[0,1]] for code 1 (left bend), to [[-1,0]] for
    code -1 (right bend), to [[-1,1]] for code 0 (straight); the output is
    also stored in [m_res]; the code is 0 whenever the path curvature is at
    most [1/R_threshold]. *)
Theorem xt_counter_steer_constraint (c : @xt_ctl pt1_state pdt1_state) veh trk step :
  let c1 := xt_prepare pt1_config pdt1_config c veh trk step in
  let res := snd (xt_blend pt1_filter pdt1_filter c1 veh) in
  let code := xt_CalcCurvatureCode c1 (fyaxis (chassis_frame veh)) (xt_pnormal c1) in
  let '(c', out) := XT_Advance c veh trk step in
  out = xt_res c' /\
  (code = 1%Z -> out = ChClamp res 0 1 /\ 0 <= out <= 1) /\
  (code = (-1)%Z -> out = ChClamp res (-1) 0 /\ -1 <= out <= 0) /\
  (code = 0%Z -> out = ChClamp res (-1) 1 /\ -1 <= out <= 1) /\
  (xt_pcurvature c1 <= 1 / xt_R_threshold c1 -> code = 0%Z).
Proof.
  pose proof (xt_advance_res c veh trk step) as H; cbv zeta in *.
  destruct (XT_Advance c veh trk step) as [c' out].
  destruct H as [H1 H2]; rewrite H2 in *.
  destruct (xt_counter_steer_cases
              (xt_CalcCurvatureCode (xt_prepare pt1_config pdt1_config c veh trk step)
                 (fyaxis (chassis_frame veh))
                 (xt_pnormal (xt_prepare pt1_config pdt1_config c veh trk step)))
              (snd (xt_blend pt1_filter pdt1_filter
                      (xt_prepare pt1_config pdt1_config c veh trk step) veh)))
    as (Hl & Hr & Hs).
  repeat split; try assumption; try (apply Hl; assumption); try (apply Hr; assumption);
    try (apply Hs; assumption).
  intros Hc; unfold xt_CalcCurvatureCode.
  destruct (Rle_dec _ _) as [_|Hn]; [reflexivity | contradiction].
Qed.

Lemma xt_advance_range (c : @xt_ctl pt1_state pdt1_state) veh trk step :
  (-1 <= snd (XT_Advance c veh trk step) <= 1) /\
  snd (XT_Advance c veh trk step) = xt_res (fst (XT_Advance c veh trk step)).
Proof.
  pose proof (xt_advance_res c veh trk step) as H; cbv zeta in H.
  destruct (XT_Advance c veh trk step) as [c' out]; destruct H as [H1 H2]; cbn.
  split; [rewrite H2; apply xt_counter_steer_range | exact H1].
Qed.

(** C10 (amended). [m_res] is 0 after construction (where the maximum wheel
    angle is positive), unchanged by [Reset] and in [[-1,1]] after every
    [Advance]; from a state with [m_res] in [[-1,1]] the Ackermann channel
    [sin(m_res * max_wheel_turn_angle)] is bounded by 1 in magnitude, and by
    [sin(max_wheel_turn_angle)] when [0 < max_wheel_turn_angle <= pi/2]. *)
Theorem xt_res_invariant :
  (forall (mem : @xt_ctl pt1_state pdt1_state) M,
      xt_res (ChPathSteeringControllerXT_ctor mem M) = 0 /\
      0 < xt_max_wheel_turn_angle (ChPathSteeringControllerXT_ctor mem M)) /\
  (forall (c : @xt_ctl pt1_state pdt1_state) veh,
      xt_res (ChPathSteeringControllerXT_Reset c veh) = xt_res c) /\
  (forall (c : @xt_ctl pt1_state pdt1_state) veh trk step,
      -1 <= xt_res (fst (XT_Advance c veh trk step)) <= 1) /\
  (forall c : @xt_ctl pt1_state pdt1_state,
      -1 <= xt_res c <= 1 -> Rabs (xt_CalcAckermannAngle c) <= 1) /\
  (forall c : @xt_ctl pt1_state pdt1_state,
      -1 <= xt_res c <= 1 -> 0 < xt_max_wheel_turn_angle c <= PI / 2 ->
      Rabs (xt_CalcAckermannAngle c) <= sin (xt_max_wheel_turn_angle c)).
Proof.
  split.
  { intros mem M; split; [reflexivity|]; cbn.
    pose proof PI_RGT_0; unfold CH_C_DEG_TO_RAD.
    destruct (Rlt_dec 0 M); lra. }
  split; [reflexivity|].
  split.
  { intros c veh trk step; destruct (xt_advance_range c veh trk step) as [H1 H2].
    rewrite <- H2; exact H1. }
  split.
  { intros c _; unfold xt_CalcAckermannAngle.
    pose proof (SIN_bound (xt_res c * xt_max_wheel_turn_angle c)).
    apply Rabs_le; lra. }
  intros c Hr HM; unfold xt_CalcAckermannAngle.
  apply sin_scaled_bound; lra.
Qed.

End XTProofs.

(** ** SR controller *)

Lemma sr_advance_some (fuel : nat) (c : sr_ctl) (veh : vehicle) (c' : sr_ctl) (out : R) :
  ChPathSteeringControllerSR_Advance fuel c veh = Some (c', out) ->
  out = sr_delta c' / sr_delta_max c' /\
  sr_delta_max c' = sr_delta_max c /\ sr_Klat c' = sr_Klat c /\ sr_Kug c' = sr_Kug c /\
  sr_umin c' = sr_umin c /\
  exists err, sr_delta c' =
    (if Rle_dec (sr_umin c) (veh_speed veh)
     then ChClamp (sr_delta c + sr_Klat c * err) (- sr_delta_max c) (sr_delta_max c)
     else sr_delta c).
Proof.
  intros H; unfold ChPathSteeringControllerSR_Advance in H; cbv zeta in H.
  destruct (sr_probe c (sr_sentinel c veh) (sr_idx_curr c)) as [[Pt0 rt0] t0].
  repeat match type of H with
         | context [match ?x with Some _ => _ | None => _ end] =>
             destruct x as [[[idx Pt] t]|]; [|discriminate]
         end.
  injection H as <- <-; cbn.
  repeat split; try reflexivity.
  eexists; reflexivity.
Qed.

Lemma sr_advance_keeps_delta (fuel : nat) (c : sr_ctl) (veh : vehicle) (c' : sr_ctl) (out : R) :
  sr_Klat c = 0 -> Rabs (sr_delta c) <= sr_delta_max c ->
  ChPathSteeringControllerSR_Advance fuel c veh = Some (c', out) ->
  sr_delta c' = sr_delta c /\ sr_Klat c' = 0 /\ sr_delta_max c' = sr_delta_max c.
Proof.
  intros HK Hd H.
  destruct (sr_advance_some fuel c veh c' out H) as (_ & Hm & Hk & _ & _ & err & He).
  rewrite He, Hm, Hk, HK.
  split; [|split; reflexivity].
  destruct (Rle_dec _ _); [|reflexivity].
  replace (sr_delta c + 0 * err) with (sr_delta c) by ring.
  apply ChClamp_inside. apply abs_le_bounds in Hd. lra.
Qed.

(** C9 (amended). [Reset] of the SR controller zeroes [Klat] and [Kug]
    and the base error states and moves the sentinel; afterwards, when the
    maximum steering angle is non-negative (and [|delta| <= delta_max], as
    in every state reached from the constructors), no run of [Advance]
    calls changes [delta] or [Klat]. *)
Theorem sr_reset_discards_gains (c : sr_ctl) (veh : vehicle)
    (Hmax : 0 <= sr_delta_max c) (Hd : Rabs (sr_delta c) <= sr_delta_max c) :
  let c0 := ChPathSteeringControllerSR_Reset c veh in
  sr_Klat c0 = 0 /\ sr_Kug c0 = 0 /\
  m_err (sr_base c0) = 0 /\ m_erri (sr_base c0) = 0 /\ m_errd (sr_base c0) = 0 /\
  m_sentinel (sr_base c0) = sentinel_at (m_dist (sr_base c)) veh /\
  forall fuel vehs c', sr_run fuel c0 vehs = Some c' -> sr_delta c' = sr_delta c /\ sr_Klat c' = 0.
Proof.
  cbv zeta.
  do 6 (split; [reflexivity|]).
  intros fuel vehs.
  assert (Hinv : forall c1, sr_Klat c1 = 0 -> sr_delta c1 = sr_delta c ->
                 sr_delta_max c1 = sr_delta_max c ->
                 forall c', sr_run fuel c1 vehs = Some c' ->
                 sr_delta c' = sr_delta c /\ sr_Klat c' = 0).
  { induction vehs as [|v vehs IH]; intros c1 HK HD HM c' Hrun; cbn [sr_run] in Hrun.
    - injection Hrun as <-; split; assumption.
    - destruct (ChPathSteeringControllerSR_Advance fuel c1 v) as [[c2 o]|] eqn:Ha;
        [|discriminate].
      destruct (sr_advance_keeps_delta fuel c1 v c2 o HK ltac:(rewrite HD, HM; exact Hd) Ha)
        as (H1 & H2 & H3).
      apply (IH c2); [exact H2 | congruence | congruence | exact Hrun]. }
  apply Hinv; reflexivity.
Qed.

(** A fresh SR controller on the open path (0,0,0), (1,0,0): [umin = 2],
    [Tp = 1/2], maximum steering angle [1/2], steering angle 0. *)
Definition sr_fresh : sr_ctl := ChPathSteeringControllerSR_ctor [vzero; V3 1 0 0] false (1 / 2) 1.

(** The same controller after [SetGains(1, 0)]. *)
Definition sr_tuned : sr_ctl := ChPathSteeringControllerSR_SetGains sr_fresh 1 0.

(** An SR controller on the same path constructed with the negative
    maximum steering angle [-1/2], which the constructor accepts. *)
Definition sr_neg : sr_ctl := ChPathSteeringControllerSR_ctor [vzero; V3 1 0 0] false (- (1 / 2)) 1.

(** A vehicle at (0, -1/4, 0) heading along +X at speed 2. *)
Definition veh_left : vehicle :=
  Vehicle (Frame (V3 0 (- (1 / 4)) 0) (V3 1 0 0) (V3 0 1 0) (V3 0 0 1))
          (V3 0 (- (1 / 4)) 0) (V3 2 0 0) 2.

(** C7 (counterexample). With [delta = 0] and the vehicle at rest at the
    origin, the sentinel is (1, 0, 0) = [umin * Tp] ahead, not the vehicle
    position [vehicle_position + 0 * Tp * forward]. *)
Lemma sr_sentinel_at_rest_not_speed_projection :
  sr_sentinel sr_fresh veh_origin = V3 1 0 0 /\
  sr_sentinel sr_fresh veh_origin <>
    vadd (fpos (chassis_frame veh_origin))
         (vscale (veh_speed veh_origin * sr_Tp sr_fresh) (fxaxis (chassis_frame veh_origin))).
Proof.
  assert (H : sr_sentinel sr_fresh veh_origin = V3 1 0 0).
  { unfold sr_sentinel; cbn -[Rlt_dec Req_EM_T Rdiv].
    destruct (Req_EM_T 0 0) as [_|Hn]; [|contradiction Hn; reflexivity].
    destruct (Rlt_dec 2 0) as [Hn|_]; [lra|].
    vec_simpl; f_equal; field. }
  split; [exact H|].
  rewrite H; unfold veh_origin; vec_simpl; intros He; injection He as H1 _ _; lra.
Qed.

(** C7 (amended). When [delta = 0] the sentinel is the chassis origin moved
    by [max(speed, umin) * Tp] along the chassis forward axis; it is
    [speed * Tp] ahead when [speed >= umin]. *)
Theorem sr_sentinel_straight_line (c : sr_ctl) (veh : vehicle) (H : sr_delta c = 0) :
  sr_sentinel c veh =
    vadd (fpos (chassis_frame veh))
         (vscale (Rmax (veh_speed veh) (sr_umin c) * sr_Tp c) (fxaxis (chassis_frame veh))) /\
  (sr_umin c <= veh_speed veh ->
   sr_sentinel c veh =
     vadd (fpos (chassis_frame veh))
          (vscale (veh_speed veh * sr_Tp c) (fxaxis (chassis_frame veh)))).
Proof.
  assert (Hs : sr_sentinel c veh =
    vadd (fpos (chassis_frame veh))
         (vscale (Rmax (veh_speed veh) (sr_umin c) * sr_Tp c) (fxaxis (chassis_frame veh)))).
  { unfold sr_sentinel; cbv zeta.
    destruct (Req_EM_T (sr_delta c) 0) as [_|Hn]; [|contradiction].
    assert (Hut : (if Rlt_dec (sr_umin c) (veh_speed veh) then veh_speed veh else sr_umin c)
                  = Rmax (veh_speed veh) (sr_umin c)).
    { unfold Rmax; destruct (Rlt_dec _ _); destruct (Rle_dec _ _); lra. }
    rewrite Hut.
    destruct (chassis_frame veh) as [p X Y Z]; vec_simpl.
    f_equal; ring. }
  split; [exact Hs|].
  intros Hu; rewrite Hs, Rmax_left by lra; reflexivity.
Qed.

Lemma sr_sentinel_straight_line_witness :
  sr_delta sr_fresh = 0 /\
  sr_sentinel sr_fresh veh_origin =
    vadd (fpos (chassis_frame veh_origin))
         (vscale (Rmax (veh_speed veh_origin) (sr_umin sr_fresh) * sr_Tp sr_fresh)
                 (fxaxis (chassis_frame veh_origin))).
Proof.
  split; [reflexivity|].
  apply (sr_sentinel_straight_line sr_fresh veh_origin); reflexivity.
Defined.

(** ** Stanley controller *)

Lemma lateral_error_same (s p : vec3) : lateral_error s s p = 0.
Proof.
  unfold lateral_error; vec_simpl.
  rewrite (sqrt_of_square _ 0); [ring | lra | ring].
Qed.

Lemma sine_step_unit_open (t : R) :
  0 < t < 1 -> 0 < t - sin (CH_C_2PI * t) / CH_C_2PI < 1.
Proof.
  intros Ht; unfold CH_C_2PI.
  pose proof PI_RGT_0 as Hpi.
  assert (H1 : sin (2 * PI * t) < 2 * PI * t) by (apply sin_lt_x; nra).
  assert (H2 : sin (2 * PI - 2 * PI * t) < 2 * PI - 2 * PI * t) by (apply sin_lt_x; nra).
  rewrite sin_minus, sin_2PI, cos_2PI in H2.
  assert (Hp : 0 < 2 * PI) by lra.
  split.
  - apply (Rmult_lt_reg_r (2 * PI)); [exact Hp|].
    unfold Rdiv; rewrite Rmult_minus_distr_r, Rmult_assoc, Rinv_l by lra. lra.
  - apply (Rmult_lt_reg_r (2 * PI)); [exact Hp|].
    unfold Rdiv; rewrite Rmult_minus_distr_r, Rmult_assoc, Rinv_l by lra. lra.
Qed.

Lemma dead_zone_weight_open (dz e : R) :
  0 < dz -> dz < Rabs e < 2 * dz -> 0 < stanley_dead_zone_weight dz e < 1.
Proof.
  intros Hdz He; unfold stanley_dead_zone_weight, ChSineStep.
  destruct (Rlt_dec 0 dz) as [_|Hn]; [|contradiction].
  destruct (Rle_dec (Rabs e) dz) as [Hc|_]; [lra|].
  destruct (Rle_dec (2 * dz) (Rabs e)) as [Hc|_]; [lra|].
  cbv zeta.
  set (t := (Rabs e - dz) / (2 * dz - dz)).
  assert (Ht : 0 < t < 1).
  { unfold t; split.
    - apply Rdiv_lt_0_compat; lra.
    - apply (Rmult_lt_reg_r (2 * dz - dz)); [lra|].
      unfold Rdiv; rewrite Rmult_assoc, Rinv_l by lra; lra. }
  assert (Harg : CH_C_2PI * (Rabs e - dz) / (2 * dz - dz) = CH_C_2PI * t)
    by (unfold t, Rdiv; ring).
  rewrite Harg.
  replace (0 + (1 - 0) * (Rabs e - dz) / (2 * dz - dz)
             - (1 - 0) / CH_C_2PI * sin (CH_C_2PI * t))
    with (t - sin (CH_C_2PI * t) / CH_C_2PI) by (unfold t, Rdiv; ring).
  apply sine_step_unit_open; exact Ht.
Qed.

(** C6. With [dead_zone = 0.05] the effective lateral error is the raw
    error times the weight [w]: [w = 0] for [|err| <= 0.05], [w = 1] for
    [|err| >= 0.10], [0 < w < 1] strictly in between, e.g. at 0.075. *)
Theorem stanley_dead_zone_005 (e : R) :
  stanley_effective_error (5 / 100) e = e * stanley_dead_zone_weight (5 / 100) e /\
  (Rabs e <= 5 / 100 -> stanley_dead_zone_weight (5 / 100) e = 0) /\
  (10 / 100 <= Rabs e -> stanley_dead_zone_weight (5 / 100) e = 1) /\
  (5 / 100 < Rabs e < 10 / 100 -> 0 < stanley_dead_zone_weight (5 / 100) e < 1) /\
  0 < stanley_dead_zone_weight (5 / 100) (75 / 1000) < 1.
Proof.
  split; [reflexivity|].
  assert (Hpos : 0 < 5 / 100) by lra.
  split.
  { intros He; unfold stanley_dead_zone_weight, ChSineStep.
    destruct (Rlt_dec 0 (5 / 100)) as [_|Hn]; [|contradiction].
    destruct (Rle_dec (Rabs e) (5 / 100)) as [_|Hn]; [reflexivity | contradiction]. }
  split.
  { intros He; unfold stanley_dead_zone_weight, ChSineStep.
    destruct (Rlt_dec 0 (5 / 100)) as [_|Hn]; [|contradiction].
    destruct (Rle_dec (Rabs e) (5 / 100)) as [Hc|_]; [lra|].
    destruct (Rle_dec (2 * (5 / 100)) (Rabs e)) as [_|Hn]; [reflexivity | lra]. }
  split.
  { intros He; apply dead_zone_weight_open; lra. }
  apply dead_zone_weight_open; [lra|].
  rewrite Rabs_right by lra; lra.
Qed.

Section StanleyProofs.
Context {pt1_state : Type}.
Variable pt1_config : R -> R -> pt1_state.
Variable pt1_filter : pt1_state -> R -> pt1_state * R.

Lemma stanley_advance_filters (c : @stanley_ctl pt1_state) veh trk step :
  let '(c1, steer) := stanley_control pt1_config c veh trk step in
  let f := match st_delayFilter c1 with Some f => f | None => pt1_config step (st_Tdelay c1) end in
  st_base (fst (ChPathSteeringControllerStanley_Advance pt1_config pt1_filter c veh trk step))
    = st_base c1 /\
  st_Treset (fst (ChPathSteeringControllerStanley_Advance pt1_config pt1_filter c veh trk step))
    = st_Treset c1 /\
  snd (ChPathSteeringControllerStanley_Advance pt1_config pt1_filter c veh trk step)
    = snd (pt1_filter f steer).
Proof.
  unfold ChPathSteeringControllerStanley_Advance.
  destruct (stanley_control pt1_config c veh trk step) as [c1 steer].
  destruct (pt1_filter _ steer) as [f' out]; cbn.
  repeat split; reflexivity.
Qed.

Lemma stanley_control_range (c : @stanley_ctl pt1_state) veh trk step :
  -1 <= snd (stanley_control pt1_config c veh trk step) <= 1.
Proof.
  unfold stanley_control; cbv zeta.
  destruct (stanley_CalcTargetLocation trk _) as [[target curv] ptangent].
  destruct (Rle_dec _ 0); cbn; apply ChClamp_range; lra.
Qed.

Lemma stanley_control_delay (c : @stanley_ctl pt1_state) veh trk step :
  st_delayFilter (fst (stanley_control pt1_config c veh trk step)) =
    Some (match st_delayFilter c with Some f => f | None => pt1_config step (st_Tdelay c) end) /\
  st_Tdelay (fst (stanley_control pt1_config c veh trk step)) = st_Tdelay c.
Proof.
  unfold stanley_control; cbv zeta.
  destruct (stanley_CalcTargetLocation trk _) as [[target curv] ptangent].
  destruct (Rle_dec _ 0); split; reflexivity.
Qed.

Lemma stanley_control_timer (c : @stanley_ctl pt1_state) veh trk step :
  let sentinel := sentinel_at (m_dist (st_base c)) veh in
  let target := fpos (fst (trk sentinel)) in
  let err := stanley_effective_error (st_deadZone c)
               (lateral_error sentinel target (veh_pos veh)) in
  let c' := fst (stanley_control pt1_config c veh trk step) in
  m_erri (st_base c') = m_erri (st_base c) + (err + m_err (st_base c)) * step / 2 /\
  (st_Treset c - step <= 0 -> st_Treset c' = 30 /\ m_err (st_base c') = 0) /\
  (0 < st_Treset c - step -> st_Treset c' = st_Treset c - step /\ m_err (st_base c') = err).
Proof.
  cbv zeta; unfold stanley_control, stanley_CalcTargetLocation; cbv zeta.
  destruct (trk (sentinel_at (m_dist (st_base c)) veh)) as [tnb curv]; cbn.
  destruct (Rle_dec (st_Treset c - step) 0) as [H|H]; cbn.
  - split; [reflexivity|]. split; [intros _; split; reflexivity | intros; lra].
  - split; [reflexivity|]. split; [intros; lra | intros _; split; reflexivity].
Qed.

(** C2 (code_bug). From a state with integral [m_erri = 1], previous error
    0, timer [1/100] and zero lateral error, one [Advance] of step [1/100]
    lets the timer expire: the timer is set back to 30 and [m_err] to 0,
    but the integral [m_erri] stays 1. *)
Theorem stanley_timer_keeps_integral :
  let c' := fst (ChPathSteeringControllerStanley_Advance pt1_config pt1_filter
                   stanley_expiring veh_origin trk_on_sentinel (1 / 100)) in
  st_Treset c' = 30 /\ m_err (st_base c') = 0 /\ m_erri (st_base c') = 1.
Proof.
  cbv zeta.
  pose proof (stanley_advance_filters stanley_expiring veh_origin trk_on_sentinel (1 / 100)) as HA.
  destruct (stanley_control pt1_config stanley_expiring veh_origin trk_on_sentinel (1 / 100))
    as [c1 steer] eqn:Hc.
  destruct HA as (Hb & Ht & _); rewrite Hb, Ht.
  pose proof (stanley_control_timer stanley_expiring veh_origin trk_on_sentinel (1 / 100)) as T.
  cbv zeta in T; rewrite Hc in T; cbn [fst] in T.
  destruct T as (Hi & Hexp & _).
  destruct Hexp as [H1 H2]; [cbn; lra|].
  split; [exact H1|]; split; [exact H2|].
  rewrite Hi; unfold trk_on_sentinel; cbn [fst fpos].
  rewrite lateral_error_same; unfold stanley_effective_error, stanley_expiring;
  cbn [m_erri m_err st_base st_deadZone].
  lra.
Qed.

End StanleyProofs.

(** ** XT heading error *)

Lemma vlength_normalized (v : vec3) :
  vlength v <> 0 -> vlength (vscale (/ vlength v) v) = 1.
Proof.
  intros Hv.
  assert (Hs : 0 <= vdot v v).
  { unfold vdot; nra. }
  assert (Hl : vlength v * vlength v = vdot v v) by (unfold vlength; apply sqrt_sqrt; exact Hs).
  unfold vlength at 1; rewrite <- sqrt_1; f_equal.
  unfold vdot, vscale; cbn [vx vy vz].
  replace (/ vlength v * vx v * (/ vlength v * vx v) + / vlength v * vy v * (/ vlength v * vy v)
           + / vlength v * vz v * (/ vlength v * vz v))
    with (vdot v v / (vlength v * vlength v)) by (unfold vdot, Rdiv; field; exact Hv).
  rewrite Hl; field.
  unfold vlength in Hv; intros H0; apply Hv; rewrite H0; apply sqrt_0.
Qed.

(** The speed measured by [CalcHeadingError] is the length of the velocity
    after [Normalize]: it is 1 for every velocity with a horizontal part. *)
Lemma xt_heading_speed_is_one (vel : vec3) :
  vlength (wf_project vel) <> 0 -> vlength (vnormalize (wf_project vel)) = 1.
Proof.
  intros H; unfold vnormalize.
  destruct (Req_EM_T (vlength (wf_project vel)) 0) as [E|_]; [contradiction|].
  apply vlength_normalized; exact H.
Qed.

Lemma vlength_V3 (a b c : R) : vlength (V3 a b c) = sqrt (a * a + b * b + c * c).
Proof. reflexivity. Qed.

Lemma project_planar (a b : R) : wf_project (V3 a b 0) = V3 a b 0.
Proof. vec_simpl; f_equal; ring. Qed.

Lemma normalize_x_half : vnormalize (V3 (1 / 2) 0 0) = V3 1 0 0.
Proof.
  unfold vnormalize; rewrite vlength_V3.
  rewrite (sqrt_of_square _ (1 / 2)) by lra.
  destruct (Req_EM_T (1 / 2) 0) as [E|_]; [lra|].
  vec_simpl; f_equal; field.
Qed.

Lemma normalize_y_unit : vnormalize (V3 0 1 0) = V3 0 1 0.
Proof.
  unfold vnormalize; rewrite vlength_V3.
  rewrite (sqrt_of_square _ 1) by lra.
  destruct (Req_EM_T 1 0) as [E|_]; [lra|].
  vec_simpl; f_equal; field.
Qed.

Lemma one_le_sqrt_2 : 1 <= sqrt 2.
Proof. rewrite <- sqrt_1; apply sqrt_le_1_alt; lra. Qed.


(** ** Construction from a configuration file *)

(** Storage holding 7 in every scalar member. *)
Definition base_storage : steer_ctl := SteerCtl 7 vzero vzero 7 7 7 7 7 7.

Definition sr_storage : sr_ctl :=
  SrCtl base_storage false 7 7 7 7 7 7 7 0 [] [] [].

(** C8 (code_bug). With a null document the PID constructor
    [ChSteeringController(filename)] leaves [m_Kp], [m_Ki], [m_Kd] and
    [m_dist] as the storage held them (here 7), while the default
    constructor sets them to 0; likewise the SR file constructor leaves
    [m_Klat], [m_Kug], [m_Tp] uninitialised, while its sibling constructor
    sets 0, 0 and 0.5. *)
Theorem json_ctor_null_document_keeps_storage :
  let c := ChSteeringController_json base_storage None in
  let s := ChPathSteeringControllerSR_json sr_storage None [vzero; V3 1 0 0] false (1 / 2) 1 in
  m_Kp c = 7 /\ m_Ki c = 7 /\ m_Kd c = 7 /\ m_dist c = 7 /\
  m_Kp ChSteeringController_default = 0 /\ m_Ki ChSteeringController_default = 0 /\
  m_Kd ChSteeringController_default = 0 /\ m_dist ChSteeringController_default = 0 /\
  sr_Klat s = 7 /\ sr_Kug s = 7 /\ sr_Tp s = 7 /\
  sr_Klat sr_fresh = 0 /\ sr_Kug sr_fresh = 0 /\ sr_Tp sr_fresh = 1 / 2.
Proof. cbv zeta; repeat split; reflexivity. Qed.

(** ** C10: the Ackermann bound fails for large wheel angles *)

Definition xt_storage : @xt_ctl unit unit :=
  XtCtl ChSteeringController_default 0 0 false 0 0 0 0 0 0 vzero 0 vzero vzero vzero tt tt tt.

(** C10 (counterexample). An XT controller constructed with
    [max_wheel_turn_angle = 3*pi/2] (accepted, being positive) has
    [m_res = 0]; its Ackermann channel [sin(0)] = 0 exceeds
    [sin(3*pi/2) = -1]. *)
Lemma xt_ackermann_above_sin_max :
  let c := ChPathSteeringControllerXT_ctor xt_storage (3 * (PI / 2)) in
  xt_res c = 0 /\
  ~ (Rabs (xt_CalcAckermannAngle c) <= sin (xt_max_wheel_turn_angle c)).
Proof.
  cbv zeta; split; [reflexivity|].
  unfold xt_CalcAckermannAngle, ChPathSteeringControllerXT_ctor; cbn [xt_res xt_max_wheel_turn_angle].
  pose proof PI_RGT_0.
  destruct (Rlt_dec 0 (3 * (PI / 2))) as [_|Hn]; [|lra].
  rewrite Rmult_0_l, sin_0, Rabs_R0, sin_3PI2; lra.
Qed.

Lemma ChClamp_sym_abs (v m : R) : Rabs (ChClamp v (- m) m) <= Rabs m.
Proof.
  unfold ChClamp.
  destruct (Rlt_dec v (- m)); [rewrite Rabs_Ropp; lra|].
  destruct (Rlt_dec m v); [lra|].
  unfold Rabs; destruct (Rcase_abs v); destruct (Rcase_abs m); lra.
Qed.

Lemma div_abs_le_1 (d m : R) : Rabs d <= Rabs m -> -1 <= d / m <= 1.
Proof.
  intros H.
  destruct (Req_EM_T m 0) as [E|E].
  - subst m; unfold Rdiv; rewrite Rinv_0, Rmult_0_r; lra.
  - apply abs_le_bounds.
    assert (Hm : 0 < Rabs m) by (apply Rabs_pos_lt; exact E).
    unfold Rdiv; rewrite Rabs_mult, Rabs_inv.
    apply (Rmult_le_reg_r (Rabs m)); [exact Hm|].
    unfold Rdiv; rewrite Rmult_assoc, Rinv_l by lra; lra.
Qed.

Lemma sr_advance_in_range_abs (fuel : nat) (c : sr_ctl) (veh : vehicle) (c' : sr_ctl) (out : R) :
  Rabs (sr_delta c) <= Rabs (sr_delta_max c) ->
  ChPathSteeringControllerSR_Advance fuel c veh = Some (c', out) ->
  -1 <= out <= 1 /\ Rabs (sr_delta c') <= Rabs (sr_delta_max c').
Proof.
  intros Hd H.
  destruct (sr_advance_some fuel c veh c' out H) as (Ho & Hm' & _ & _ & _ & err & He).
  assert (Hr : Rabs (sr_delta c') <= Rabs (sr_delta_max c)).
  { rewrite He; destruct (Rle_dec _ _); [apply ChClamp_sym_abs | exact Hd]. }
  rewrite Hm' in Ho |- *.
  split; [rewrite Ho; apply div_abs_le_1; exact Hr | exact Hr].
Qed.

(** ** C1: range of the returned commands *)

Section AllControllers.
Context {pt1_state pdt1_state : Type}.
Variable pt1_config : R -> R -> pt1_state.
Variable pt1_filter : pt1_state -> R -> pt1_state * R.
Variable pdt1_config : R -> R -> R -> R -> pdt1_state.
Variable pdt1_filter : pdt1_state -> R -> pdt1_state * R.


End AllControllers.

(** * Further properties of the controllers *)

Lemma vec_ext (a b : vec3) : vx a = vx b -> vy a = vy b -> vz a = vz b -> a = b.
Proof. destruct a, b; cbn; intros -> -> ->; reflexivity. Qed.

Lemma run_log_safe (evs : list log_event) (l : data_log) :
  (m_collect l = true -> m_csv l <> None) ->
  exists l', run_log l evs = Some l' /\ (m_collect l' = true -> m_csv l' <> None).
Proof.
  revert l; induction evs as [|e evs IH]; intros l H; cbn [run_log].
  - exists l; split; [reflexivity | exact H].
  - destruct e as [| |row].
    + apply IH. unfold StartDataCollection.
      destruct (m_collect l) eqn:E; [intros _; apply H; reflexivity|].
      destruct (m_csv l); cbn; intros _; discriminate.
    + apply IH; cbn; discriminate.
    + unfold log_advance.
      destruct (m_collect l) eqn:E.
      * destruct (m_csv l) eqn:E2; [| exfalso; apply H; reflexivity].
        apply IH; cbn; intros _; discriminate.
      * apply IH; rewrite E; discriminate.
Qed.

(** Starting from a controller that has never collected data, any sequence of StartDataCollection, StopDataCollection and logging Advance calls avoids a null CSV writer: whenever collection is on, the writer exists. *)
Theorem log_run_never_null (evs : list log_event) :
  exists l, run_log data_log_init evs = Some l /\ (m_collect l = true -> m_csv l <> None).
Proof. apply run_log_safe; cbn; discriminate. Qed.

Lemma run_log_advances (prev rows : list csv_row) :
  run_log (DataLog (Some prev) true) (map LogAdvance rows) = Some (DataLog (Some (prev ++ rows)) true).
Proof.
  revert prev; induction rows as [|r rows IH]; intros prev; cbn.
  - rewrite app_nil_r; reflexivity.
  - rewrite IH, <- app_assoc; reflexivity.
Qed.

Lemma run_log_stopped (l : data_log) (rows : list csv_row) :
  m_collect l = false -> run_log l (map LogAdvance rows) = Some l.
Proof.
  intros H; induction rows as [|r rows IH]; cbn; [reflexivity|].
  unfold log_advance; rewrite H; exact IH.
Qed.

(** StartDataCollection creates the writer only once: after a stop, a new start resumes appending to the rows already written; while stopped, Advance writes nothing. *)
Theorem log_pause_resume (l : data_log) (rows : list csv_row)
    (H : m_collect l = true -> m_csv l <> None) :
  let prev := match m_csv l with Some r => r | None => [] end in
  run_log l (LogStart :: map LogAdvance rows) = Some (DataLog (Some (prev ++ rows)) true) /\
  run_log l (LogStop :: map LogAdvance rows) = Some (StopDataCollection l) /\
  StartDataCollection (StopDataCollection l) = DataLog (Some prev) true.
Proof.
  cbv zeta; split; [|split].
  - cbn [run_log]. unfold StartDataCollection.
    destruct l as [csv col]; cbn [m_csv m_collect] in *.
    destruct col.
    + destruct csv as [prev|]; [apply run_log_advances | exfalso; apply H; reflexivity].
    + destruct csv as [prev|]; [apply run_log_advances|].
      apply run_log_advances.
  - cbn [run_log]; apply run_log_stopped; reflexivity.
  - unfold StartDataCollection, StopDataCollection; cbn.
    destruct (m_csv l); reflexivity.
Qed.

Lemma run_log_written (evs : list log_event) (l l' : data_log) :
  (m_collect l = true -> m_csv l <> None) -> run_log l evs = Some l' ->
  (m_csv l' = None <-> m_csv l = None /\ ~ In LogStart evs).
Proof.
  revert l; induction evs as [|e evs IH]; intros l H Hr; cbn [run_log] in Hr.
  - injection Hr as <-; cbn; tauto.
  - destruct e as [| |row].
    + assert (Hs : m_csv (StartDataCollection l) <> None).
      { unfold StartDataCollection; destruct (m_collect l) eqn:E; [apply H; reflexivity|].
        destruct (m_csv l); cbn; discriminate. }
      assert (Hi : m_collect (StartDataCollection l) = true -> m_csv (StartDataCollection l) <> None)
        by (intros _; exact Hs).
      rewrite (IH _ Hi Hr); cbn; tauto.
    + assert (Hi : m_collect (StopDataCollection l) = true -> m_csv (StopDataCollection l) <> None)
        by (cbn; discriminate).
      rewrite (IH _ Hi Hr); cbn.
      split; [intros [A B]; split; [exact A|]; intros [C|C]; [discriminate | exact (B C)]
             |intros [A B]; split; [exact A|]; intros C; apply B; right; exact C].
    + unfold log_advance in Hr.
      destruct (m_collect l) eqn:E.
      * destruct (m_csv l) as [rows|] eqn:E2; [|exfalso; apply H; reflexivity].
        assert (Hi : m_collect (DataLog (Some (rows ++ [row])) true) = true ->
                     m_csv (DataLog (Some (rows ++ [row])) true) <> None) by (cbn; discriminate).
        rewrite (IH _ Hi Hr); cbn; split; intros [A _]; discriminate.
      * rewrite (IH l ltac:(rewrite E; discriminate) Hr); cbn.
        split; [intros [A B]; split; [exact A|]; intros [C|C]; [discriminate | exact (B C)]
               |intros [A B]; split; [exact A|]; intros C; apply B; right; exact C].
Qed.

(** From a fresh controller, WriteOutputFile has nothing to write (the writer is null) exactly when StartDataCollection was never called. *)
Theorem log_written_only_if_started (evs : list log_event) (l : data_log)
    (H : run_log data_log_init evs = Some l) :
  WriteOutputFile l = None <-> ~ In LogStart evs.
Proof.
  unfold WriteOutputFile.
  rewrite (run_log_written evs data_log_init l ltac:(cbn; discriminate) H); cbn; tauto.
Qed.

Lemma project_shift (a b : vec3) (h1 h2 : R) :
  wf_project (vsub (vadd a (vscale h1 wf_vertical)) (vadd b (vscale h2 wf_vertical))) =
  wf_project (vsub a b).
Proof.
  destruct a, b; unfold wf_project, wf_height, vsub, vadd, vscale, vdot, wf_vertical; cbn.
  f_equal; ring.
Qed.

Lemma ChSignum_abs (x : R) : Rabs (ChSignum x) <= 1.
Proof.
  unfold ChSignum; destruct (Rlt_dec 0 x); [|destruct (Rlt_dec x 0)];
    unfold Rabs; destruct (Rcase_abs _); lra.
Qed.

(** The lateral error of the base Advance ignores vertical offsets of the sentinel, the target and the vehicle, and its magnitude is at most the horizontal distance between sentinel and target. *)
Theorem lateral_error_horizontal (s t p : vec3) (h1 h2 h3 : R) :
  lateral_error (vadd s (vscale h1 wf_vertical)) (vadd t (vscale h2 wf_vertical))
                (vadd p (vscale h3 wf_vertical)) = lateral_error s t p /\
  Rabs (lateral_error s t p) <= vlength (wf_project (vsub t s)).
Proof.
  split.
  - unfold lateral_error; rewrite !project_shift; reflexivity.
  - unfold lateral_error; cbv zeta.
    rewrite Rabs_mult, (Rabs_pos_eq (vlength _)) by apply sqrt_pos.
    pose proof (ChSignum_abs (vdot (vcross (wf_project (vsub s p)) (wf_project (vsub t p))) wf_vertical)).
    pose proof (sqrt_pos (vdot (wf_project (vsub t s)) (wf_project (vsub t s)))).
    unfold vlength in *; nra.
Qed.

(** After Reset, the first Advance starts the PID terms from zero: the integral is err * step / 2, the derivative is err / step, and the output is Kp err + Ki (err step / 2) + Kd (err / step). *)
Theorem pid_first_advance_after_reset (c : steer_ctl) (veh0 veh : vehicle)
    (calc_target : vec3 -> vec3) (step : R) :
  let sentinel := sentinel_at (m_dist c) veh in
  let err := lateral_error sentinel (calc_target sentinel) (veh_pos veh) in
  let '(c1, out) := ChSteeringController_Advance (ChSteeringController_Reset c veh0) veh calc_target step in
  m_err c1 = err /\ m_erri c1 = err * step / 2 /\ m_errd c1 = err / step /\
  out = m_Kp c * err + m_Ki c * (err * step / 2) + m_Kd c * (err / step).
Proof.
  cbv zeta; unfold ChSteeringController_Advance, ChSteeringController_Reset; cbn.
  unfold Rdiv; repeat split; ring.
Qed.



Lemma vnormalize_unit (v : vec3) : vlength (vnormalize v) = 1.
Proof.
  unfold vnormalize; destruct (Req_EM_T (vlength v) 0) as [E|E].
  - unfold vlength, vdot; cbn; apply sqrt_of_square; lra.
  - apply vlength_normalized; exact E.
Qed.

Lemma normalize_project_planar (v : vec3) :
  vz (vnormalize (wf_project v)) = 0 /\
  vx (vnormalize (wf_project v)) * vx (vnormalize (wf_project v)) +
  vy (vnormalize (wf_project v)) * vy (vnormalize (wf_project v)) = 1.
Proof.
  pose proof (vnormalize_unit (wf_project v)) as Hu.
  assert (Hz : vz (vnormalize (wf_project v)) = 0).
  { unfold vnormalize; destruct (Req_EM_T _ 0); [reflexivity|].
    unfold wf_project, wf_height, vsub, vscale, vdot, wf_vertical; cbn; ring. }
  split; [exact Hz|].
  set (n := vnormalize (wf_project v)) in *.
  assert (Hd : vdot n n = 1).
  { unfold vlength in Hu.
    rewrite <- (sqrt_sqrt (vdot n n)) by (unfold vdot; nra).
    rewrite Hu; ring. }
  unfold vdot in Hd; rewrite Hz in Hd; lra.
Qed.

Lemma planar_cross_height (a b : vec3) :
  vz a = 0 -> vz b = 0 ->
  vx a * vx a + vy a * vy a = 1 -> vx b * vx b + vy b * vy b = 1 ->
  -1 <= wf_height (vcross a b) <= 1.
Proof.
  intros Ha Hb Na Nb.
  unfold wf_height, vcross, vdot, wf_vertical; cbn [vx vy vz].
  rewrite Ha, Hb.
  set (z := vx a * vy b - vy a * vx b).
  assert (E : z * z + (vx a * vx b + vy a * vy b) * (vx a * vx b + vy a * vy b) =
              (vx a * vx a + vy a * vy a) * (vx b * vx b + vy b * vy b)) by (unfold z; ring).
  rewrite Na, Nb in E.
  assert (Hw : 0 <= (vx a * vx b + vy a * vy b) * (vx a * vx b + vy a * vy b))
    by apply Rle_0_sqr.
  assert (Hz : z * z <= 1) by lra.
  replace ((vy a * 0 - 0 * vy b) * 0 + (0 * vx b - vx a * 0) * 0 + z * 1) with z by ring.
  split; nra.
Qed.

(** The Stanley CalcHeadingError applies asin to the vertical component of the cross product of the two projected, normalized directions, and that argument always lies in [-1, 1]; so the sine of the heading error is that argument (Normalize and the world-frame projection are modelled from the spec). *)
Theorem stanley_heading_error_well_defined (a b : vec3) :
  let s := wf_height (vcross (vnormalize (wf_project a)) (vnormalize (wf_project b))) in
  -1 <= s <= 1 /\ stanley_CalcHeadingError a b = asin s /\
  sin (stanley_CalcHeadingError a b) = s.
Proof.
  cbv zeta; unfold stanley_CalcHeadingError; cbv zeta.
  destruct (normalize_project_planar a) as [Az Au].
  destruct (normalize_project_planar b) as [Bz Bu].
  pose proof (planar_cross_height _ _ Az Bz Au Bu) as Hb.
  split; [exact Hb|]; split; [reflexivity|].
  apply sin_asin; exact Hb.
Qed.

Lemma planar_unit_neg (v : vec3) :
  vz v = 0 -> vx v * vx v + vy v * vy v = 1 ->
  vz (vneg v) = 0 /\ vx (vneg v) * vx (vneg v) + vy (vneg v) * vy (vneg v) = 1.
Proof. unfold vneg; cbn; intros Hz Hu; rewrite Hz; split; lra. Qed.

(** The XT CalcHeadingError caches the projected, normalized velocity, a horizontal unit vector; the argument it passes to asin (the vertical component of the cross product of the chosen motion direction with the path direction, or with its opposite) always lies in [-1, 1], so the sine of the returned heading error is that argument. *)
Theorem xt_heading_error_well_defined (vel a b : vec3) :
  let vel' := vnormalize (wf_project vel) in
  let a' := if Rlt_dec (vlength vel') 1 then vnormalize (wf_project a) else vel' in
  let b' := vnormalize (wf_project b) in
  let s := wf_height (if Rlt_dec (vlength (vsub a' b')) 1 then vcross a' b'
                      else vcross a' (vneg b')) in
  fst (xt_CalcHeadingError vel a b) = vel' /\
  vz vel' = 0 /\ vx vel' * vx vel' + vy vel' * vy vel' = 1 /\
  -1 <= s <= 1 /\ snd (xt_CalcHeadingError vel a b) = asin s /\
  sin (snd (xt_CalcHeadingError vel a b)) = s.
Proof.
  cbv zeta; unfold xt_CalcHeadingError; cbv zeta.
  destruct (normalize_project_planar vel) as [Vz Vu].
  destruct (normalize_project_planar a) as [Az Au].
  destruct (normalize_project_planar b) as [Bz Bu].
  assert (K : forall x y : vec3,
             vz x = 0 -> vx x * vx x + vy x * vy x = 1 ->
             vz y = 0 -> vx y * vx y + vy y * vy y = 1 ->
             -1 <= wf_height (if Rlt_dec (vlength (vsub x y)) 1 then vcross x y
                              else vcross x (vneg y)) <= 1).
  { intros x y Xz Xu Yz Yu.
    destruct (planar_unit_neg _ Yz Yu) as [NYz NYu].
    destruct (Rlt_dec (vlength (vsub x y)) 1);
      [exact (planar_cross_height _ _ Xz Yz Xu Yu)
      |exact (planar_cross_height _ _ Xz NYz Xu NYu)]. }
  destruct (Rlt_dec (vlength (vnormalize (wf_project vel))) 1); cbn [fst snd];
    (split; [reflexivity|]; split; [exact Vz|]; split; [exact Vu|]);
    (split; [apply K; assumption|]; split; [reflexivity|]; apply sin_asin; apply K; assumption).
Qed.

Lemma project_scale_shift (a : vec3) (k h : R) :
  wf_project (vadd (vscale k a) (vscale h wf_vertical)) = vscale k (wf_project a).
Proof.
  destruct a; unfold wf_project, wf_height, vsub, vadd, vscale, vdot, wf_vertical; cbn.
  f_equal; ring.
Qed.

Lemma vlength_scale (k : R) (v : vec3) : 0 < k -> vlength (vscale k v) = k * vlength v.
Proof.
  intros Hk; unfold vlength.
  replace (vdot (vscale k v) (vscale k v)) with ((k * k) * vdot v v)
    by (unfold vdot, vscale; cbn; ring).
  rewrite sqrt_mult_alt by nra.
  rewrite sqrt_square by lra; reflexivity.
Qed.

Lemma vnormalize_scale (k : R) (v : vec3) : 0 < k -> vnormalize (vscale k v) = vnormalize v.
Proof.
  intros Hk; unfold vnormalize; rewrite vlength_scale by exact Hk.
  destruct (Req_EM_T (k * vlength v) 0) as [E1|E1];
    destruct (Req_EM_T (vlength v) 0) as [E2|E2].
  - reflexivity.
  - exfalso; apply E2; apply (Rmult_eq_reg_l k); [rewrite Rmult_0_r; exact E1 | lra].
  - exfalso; apply E1; rewrite E2; ring.
  - destruct v; unfold vscale; cbn; f_equal; field; split; lra.
Qed.

(** The Stanley heading error depends only on the horizontal directions of its two vectors: positive scaling and vertical offsets do not change it, and swapping the vectors negates it. *)
Theorem stanley_heading_error_direction_only (a b : vec3) (k1 k2 h1 h2 : R)
    (Hk1 : 0 < k1) (Hk2 : 0 < k2) :
  stanley_CalcHeadingError (vadd (vscale k1 a) (vscale h1 wf_vertical))
                           (vadd (vscale k2 b) (vscale h2 wf_vertical)) =
  stanley_CalcHeadingError a b /\
  stanley_CalcHeadingError b a = - stanley_CalcHeadingError a b.
Proof.
  split.
  - unfold stanley_CalcHeadingError; cbv zeta.
    rewrite !project_scale_shift, !vnormalize_scale by assumption; reflexivity.
  - unfold stanley_CalcHeadingError; cbv zeta.
    rewrite <- asin_opp; f_equal.
    unfold wf_height, vcross, vdot, wf_vertical; cbn [vx vy vz]; ring.
Qed.

Lemma stanley_weight_range (dz err : R) : 0 <= stanley_dead_zone_weight dz err <= 1.
Proof.
  destruct (Rlt_dec 0 dz) as [Hdz|Hdz].
  - destruct (Rle_dec (Rabs err) dz) as [H1|H1].
    + unfold stanley_dead_zone_weight, ChSineStep.
      destruct (Rlt_dec 0 dz) as [_|]; [|contradiction].
      destruct (Rle_dec (Rabs err) dz); [lra | contradiction].
    + destruct (Rle_dec (2 * dz) (Rabs err)) as [H2|H2].
      * unfold stanley_dead_zone_weight, ChSineStep.
        destruct (Rlt_dec 0 dz) as [_|]; [|contradiction].
        destruct (Rle_dec (Rabs err) dz); [contradiction|].
        destruct (Rle_dec (2 * dz) (Rabs err)); [lra | contradiction].
      * pose proof (dead_zone_weight_open dz err Hdz ltac:(lra)); lra.
  - unfold stanley_dead_zone_weight.
    destruct (Rlt_dec 0 dz); [contradiction | lra].
Qed.

(** The Stanley dead-zone weight lies in [0, 1], so the weighted lateral error keeps its sign and never grows; it is zero inside the dead zone, unchanged beyond twice the dead zone, and unchanged when the dead zone is not positive (ChSineStep modelled from the spec). *)
Theorem stanley_dead_zone_shrinks_error (dz err : R) :
  0 <= stanley_dead_zone_weight dz err <= 1 /\
  Rabs (stanley_effective_error dz err) <= Rabs err /\
  0 <= err * stanley_effective_error dz err /\
  (dz <= 0 -> stanley_effective_error dz err = err) /\
  (0 < dz -> Rabs err <= dz -> stanley_effective_error dz err = 0) /\
  (0 < dz -> 2 * dz <= Rabs err -> stanley_effective_error dz err = err).
Proof.
  pose proof (stanley_weight_range dz err) as Hw.
  unfold stanley_effective_error; cbv zeta.
  split; [exact Hw|].
  split.
  { rewrite Rabs_mult, (Rabs_pos_eq (stanley_dead_zone_weight dz err)) by lra.
    pose proof (Rabs_pos err); nra. }
  split.
  { replace (err * (err * stanley_dead_zone_weight dz err))
      with ((err * err) * stanley_dead_zone_weight dz err) by ring.
    apply Rmult_le_pos; [nra | lra]. }
  split.
  { intros H; unfold stanley_dead_zone_weight.
    destruct (Rlt_dec 0 dz); [lra | ring]. }
  split.
  { intros H1 H2; unfold stanley_dead_zone_weight, ChSineStep.
    destruct (Rlt_dec 0 dz); [|contradiction].
    destruct (Rle_dec (Rabs err) dz); [ring | contradiction]. }
  intros H1 H2; unfold stanley_dead_zone_weight, ChSineStep.
  destruct (Rlt_dec 0 dz); [|contradiction].
  destruct (Rle_dec (Rabs err) dz); [lra|].
  destruct (Rle_dec (2 * dz) (Rabs err)); [ring | contradiction].
Qed.

Section StanleyExtra.
Context {pt1_state : Type}.
Variable pt1_config : R -> R -> pt1_state.
Variable pt1_filter : pt1_state -> R -> pt1_state * R.

(** With a positive step, the Stanley reset timer m_Treset stays in (0, 30] across Advance calls once it starts there. *)
Theorem stanley_timer_in_range (c : @stanley_ctl pt1_state) veh trk (step : R)
    (Hstep : 0 < step) (HT : 0 < st_Treset c <= 30) :
  0 < st_Treset (fst (ChPathSteeringControllerStanley_Advance pt1_config pt1_filter c veh trk step)) <= 30.
Proof.
  pose proof (stanley_advance_filters pt1_config pt1_filter c veh trk step) as HA.
  pose proof (stanley_control_timer pt1_config c veh trk step) as T; cbv zeta in T.
  destruct (stanley_control pt1_config c veh trk step) as [c1 steer].
  destruct HA as (_ & Ht & _); rewrite Ht.
  cbn [fst] in T; destruct T as (_ & Hexp & Hrun).
  destruct (Rle_dec (st_Treset c - step) 0) as [H|H].
  - destruct (Hexp H) as [-> _]; lra.
  - destruct (Hrun ltac:(lra)) as [-> _]; lra.
Qed.

(** Once the Stanley delay filter exists, Advance does not create it again and its output is that filter applied to the clamped steering value. *)
Theorem stanley_delay_filter_created_once (c : @stanley_ctl pt1_state) (f : pt1_state)
    (H : st_delayFilter c = Some f) :
  forall pt1_config' veh trk step,
    ChPathSteeringControllerStanley_Advance pt1_config' pt1_filter c veh trk step =
    ChPathSteeringControllerStanley_Advance pt1_config pt1_filter c veh trk step /\
    snd (ChPathSteeringControllerStanley_Advance pt1_config pt1_filter c veh trk step) =
    snd (pt1_filter f (snd (stanley_control pt1_config c veh trk step))).
Proof.
  intros cfg veh trk step.
  unfold ChPathSteeringControllerStanley_Advance, stanley_control; rewrite H; cbv zeta.
  destruct (stanley_CalcTargetLocation trk _) as [[tg cv] pt].
  destruct (Rle_dec _ 0); cbn;
    (destruct (pt1_filter f _); split; reflexivity).
Qed.

End StanleyExtra.

Section XTExtra.
Context {pt1_state pdt1_state : Type}.
Variable pt1_config : R -> R -> pt1_state.
Variable pt1_filter : pt1_state -> R -> pt1_state * R.
Variable pdt1_config : R -> R -> R -> R -> pdt1_state.
Variable pdt1_filter : pdt1_state -> R -> pdt1_state * R.

(** The XT filters are configured on the first Advance only: afterwards the flag is set, Reset keeps the flag and the filter states, and later Advance calls do not depend on the filter configuration. *)
Theorem xt_filters_configured_once :
  (forall (c : @xt_ctl pt1_state pdt1_state) veh trk step,
      xt_filters_initialized
        (fst (ChPathSteeringControllerXT_Advance pt1_config pt1_filter pdt1_config pdt1_filter
                c veh trk step)) = true) /\
  (forall (c : @xt_ctl pt1_state pdt1_state) veh,
      let c' := ChPathSteeringControllerXT_Reset c veh in
      xt_filters_initialized c' = xt_filters_initialized c /\
      xt_HeadErrDelay c' = xt_HeadErrDelay c /\
      xt_AckermannAngleDelay c' = xt_AckermannAngleDelay c /\
      xt_PathErrCtl c' = xt_PathErrCtl c) /\
  (forall (c : @xt_ctl pt1_state pdt1_state),
      xt_filters_initialized c = true ->
      forall pt1_config' pdt1_config' veh trk step,
        ChPathSteeringControllerXT_Advance pt1_config' pt1_filter pdt1_config' pdt1_filter
          c veh trk step =
        ChPathSteeringControllerXT_Advance pt1_config pt1_filter pdt1_config pdt1_filter
          c veh trk step).
Proof.
  split; [|split].
  - intros c veh trk step; unfold ChPathSteeringControllerXT_Advance; cbv zeta.
    destruct (xt_blend _ _ _ _) as [[[[pe hd] ad] vel] res]; cbn [fst xt_filters_initialized].
    unfold xt_prepare.
    destruct (xt_filters_initialized c); destruct (trk _); reflexivity.
  - intros c veh; cbn; repeat split; reflexivity.
  - intros c H cfg pcfg veh trk step.
    unfold ChPathSteeringControllerXT_Advance, xt_prepare; rewrite H; reflexivity.
Qed.

End XTExtra.

(** SR SetGains stores |Klat| and Kug clamped to [0, 5], and SetPreviewTime stores Tp clamped to [0.2, 4]; values already in range are kept exactly, and each setter leaves the other gains and the steering angle unchanged. *)
Theorem sr_setters_clamp (c : sr_ctl) (Klat Kug Tp : R) :
  let c1 := ChPathSteeringControllerSR_SetGains c Klat Kug in
  let c2 := ChPathSteeringControllerSR_SetPreviewTime c Tp in
  sr_Klat c1 = Rabs Klat /\ 0 <= sr_Klat c1 /\ 0 <= sr_Kug c1 <= 5 /\
  (0 <= Kug <= 5 -> sr_Kug c1 = Kug) /\
  2 / 10 <= sr_Tp c2 <= 4 /\ (2 / 10 <= Tp <= 4 -> sr_Tp c2 = Tp) /\
  sr_Tp c1 = sr_Tp c /\ sr_Klat c2 = sr_Klat c /\ sr_Kug c2 = sr_Kug c /\
  sr_delta c1 = sr_delta c /\ sr_delta c2 = sr_delta c.
Proof.
  cbv zeta; cbn.
  split; [reflexivity|].
  split; [apply Rabs_pos|].
  split; [apply ChClamp_range; lra|].
  split; [apply ChClamp_inside|].
  split; [apply ChClamp_range; lra|].
  split; [apply ChClamp_inside|].
  repeat split; reflexivity.
Qed.

(** Witnesses *)
Lemma stanley_timer_in_range_witness :
  0 < 1 / 100 /\ 0 < st_Treset (@stanley_expiring unit) <= 30 /\
  0 < st_Treset (fst (ChPathSteeringControllerStanley_Advance (fun _ _ => tt) (fun s x => (s, x))
                        stanley_expiring veh_origin trk_on_sentinel (1 / 100))) <= 30.
Proof.
  assert (H1 : 0 < 1 / 100) by lra.
  assert (H2 : 0 < st_Treset (@stanley_expiring unit) <= 30) by (cbn; lra).
  split; [exact H1|]; split; [exact H2|].
  exact (stanley_timer_in_range (fun _ _ => tt) (fun s x => (s, x))
           stanley_expiring veh_origin trk_on_sentinel (1 / 100) H1 H2).
Defined.

Lemma stanley_delay_filter_created_once_witness :
  st_delayFilter stanley_running = Some tt /\
  ChPathSteeringControllerStanley_Advance (fun _ _ => tt) (fun s x => (s, x))
    stanley_running veh_origin trk_on_sentinel (1 / 100) =
  ChPathSteeringControllerStanley_Advance (fun _ _ => tt) (fun s x => (s, x))
    stanley_running veh_origin trk_on_sentinel (1 / 100).
Proof.
  split; [reflexivity|].
  exact (proj1 (stanley_delay_filter_created_once (fun _ _ => tt) (fun s x => (s, x))
                  stanley_running tt eq_refl (fun _ _ => tt) veh_origin trk_on_sentinel (1 / 100))).
Defined.





Lemma nth_map_seq (f : nat -> vec3) (n i : nat) :
  (i < n)%nat -> nth i (map f (seq 0 n)) vzero = f i.
Proof.
  intros Hi.
  rewrite (nth_indep _ _ (f 0%nat)) by (rewrite length_map, length_seq; exact Hi).
  rewrite map_nth, seq_nth by exact Hi; reflexivity.
Qed.

Lemma vadd_vsub_cancel (a b : vec3) : vadd a (vsub b a) = b.
Proof. apply vec_ext; unfold vadd, vsub; cbn; ring. Qed.

Lemma vsum_app (l1 l2 : list vec3) : vsum (l1 ++ l2) = vadd (vsum l1) (vsum l2).
Proof.
  induction l1 as [|a l1 IH]; cbn [app].
  - apply vec_ext; unfold vsum, vadd, vzero; cbn; ring.
  - change (vsum (a :: l1 ++ l2)) with (vadd a (vsum (l1 ++ l2))).
    change (vsum (a :: l1)) with (vadd a (vsum l1)).
    rewrite IH; apply vec_ext; unfold vadd; cbn; ring.
Qed.

Lemma vsum_telescope (P : nat -> vec3) (k n : nat) :
  vsum (map (fun i => vsub (P (S i)) (P i)) (seq k n)) = vsub (P (k + n)%nat) (P k).
Proof.
  revert k; induction n as [|n IH]; intros k.
  - rewrite Nat.add_0_r; apply vec_ext; unfold vsum, vsub, vzero; cbn; ring.
  - cbn [seq map]. change (vsum (?a :: ?l)) with (vadd a (vsum l)).
    rewrite IH. replace (k + S n)%nat with (S k + n)%nat by lia.
    apply vec_ext; unfold vadd, vsub; cbn; ring.
Qed.

Lemma sr_CalcPathPoints_eq (isClosedPath : bool) (pts : list vec3) :
  sr_CalcPathPoints isClosedPath pts =
  (pts,
   map (fun i =>
          if Nat.eqb i (length pts - 1)
          then (if isClosedPath then vsub (nth 0 pts vzero) (nth (length pts - 1) pts vzero)
                else vsub (nth (length pts - 1) pts vzero) (nth (length pts - 2) pts vzero))
          else vsub (nth (S i) pts vzero) (nth i pts vzero))
       (seq 0 (length pts)),
   map vnormalize
     (map (fun i =>
             if Nat.eqb i (length pts - 1)
             then (if isClosedPath then vsub (nth 0 pts vzero) (nth (length pts - 1) pts vzero)
                   else vsub (nth (length pts - 1) pts vzero) (nth (length pts - 2) pts vzero))
             else vsub (nth (S i) pts vzero) (nth i pts vzero))
          (seq 0 (length pts)))).
Proof. reflexivity. Qed.

(** On a closed path with at least one point, CalcPathPoints gives one segment per point, each segment ends at the next point (wrapping to the first), and the segments sum to zero. *)
Theorem sr_path_points_closed (pts : list vec3) (H : (1 <= length pts)%nat) :
  let '(Sl, Rl, Rlu) := sr_CalcPathPoints true pts in
  Sl = pts /\ length Rl = length pts /\ length Rlu = length pts /\
  (forall i, (i < length pts)%nat ->
     vadd (nth i Sl vzero) (nth i Rl vzero) = nth (S i mod length pts) Sl vzero) /\
  vsum Rl = vzero.
Proof.
  rewrite sr_CalcPathPoints_eq.
  set (np := length pts) in *.
  set (P := fun i => nth i pts vzero).
  split; [reflexivity|].
  split; [rewrite length_map, length_seq; reflexivity|].
  split; [rewrite !length_map, length_seq; reflexivity|].
  split.
  - intros i Hi; rewrite nth_map_seq by exact Hi.
    destruct (Nat.eqb i (np - 1)) eqn:E.
    + apply Nat.eqb_eq in E.
      replace (S i) with np by lia. rewrite Nat.Div0.mod_same.
      rewrite E; apply vadd_vsub_cancel.
    + apply Nat.eqb_neq in E.
      rewrite Nat.mod_small by lia. apply vadd_vsub_cancel.
  - destruct np as [|m] eqn:Enp; [lia|].
    rewrite seq_S, map_app, vsum_app.
    rewrite (map_ext_in _ (fun i => vsub (P (S i)) (P i))).
    2: { intros i Hi; apply in_seq in Hi.
         destruct (Nat.eqb i (S m - 1)) eqn:E; [apply Nat.eqb_eq in E; lia | reflexivity]. }
    rewrite vsum_telescope.
    cbn [map]. rewrite Nat.add_0_l.
    replace (S m - 1)%nat with m by lia. rewrite Nat.eqb_refl.
    subst P; apply vec_ext; unfold vsum, vadd, vsub; cbn; ring.
Qed.

(** On an open path with at least two points, CalcPathPoints gives one segment per point, each segment but the last ends at the next point, and the last segment repeats the one before it. *)
Theorem sr_path_points_open (pts : list vec3) (H : (2 <= length pts)%nat) :
  let '(Sl, Rl, Rlu) := sr_CalcPathPoints false pts in
  Sl = pts /\ length Rl = length pts /\ length Rlu = length pts /\
  (forall i, (i < length pts - 1)%nat ->
     vadd (nth i Sl vzero) (nth i Rl vzero) = nth (S i) Sl vzero) /\
  nth (length pts - 1) Rl vzero = nth (length pts - 2) Rl vzero.
Proof.
  rewrite sr_CalcPathPoints_eq.
  set (np := length pts) in *.
  split; [reflexivity|].
  split; [rewrite length_map, length_seq; reflexivity|].
  split; [rewrite !length_map, length_seq; reflexivity|].
  split.
  - intros i Hi; rewrite nth_map_seq by lia.
    destruct (Nat.eqb i (np - 1)) eqn:E; [apply Nat.eqb_eq in E; lia|].
    apply vadd_vsub_cancel.
  - rewrite !nth_map_seq by lia.
    rewrite Nat.eqb_refl.
    destruct (Nat.eqb (np - 2) (np - 1)) eqn:E; [apply Nat.eqb_eq in E; lia|].
    replace (S (np - 2)) with (np - 1)%nat by lia; reflexivity.
Qed.

(** Every direction that CalcPathPoints computes has unit length, and equals its segment divided by the segment's length when that length is nonzero. *)
Theorem sr_path_directions_unit (isClosedPath : bool) (pts : list vec3)
    (H : (if isClosedPath then 1 <= length pts else 2 <= length pts)%nat) :
  let '(_, Rl, Rlu) := sr_CalcPathPoints isClosedPath pts in
  forall i, (i < length pts)%nat ->
    vlength (nth i Rlu vzero) = 1 /\
    (vlength (nth i Rl vzero) <> 0 ->
     nth i Rlu vzero = vscale (/ vlength (nth i Rl vzero)) (nth i Rl vzero)).
Proof.
  rewrite sr_CalcPathPoints_eq.
  intros i Hi.
  rewrite (nth_indep _ _ (vnormalize vzero)) by (rewrite !length_map, length_seq; exact Hi).
  rewrite map_nth.
  split; [apply vnormalize_unit|].
  intros Hn; unfold vnormalize.
  destruct (Req_EM_T _ 0); [contradiction | reflexivity].
Qed.

(** SR Advance *)

Lemma sr_seek_open (fuel : nat) (c : sr_ctl) (s : vec3) (idx : nat) (Pt : vec3) (rt t : R) :
  sr_isClosedPath c = false -> (idx < length (S_l c))%nat ->
  exists idx' Pt' t', sr_seek fuel c s idx Pt rt t = Some (idx', Pt', t') /\
    (idx' = idx \/ idx' = S idx) /\ (idx' < length (S_l c))%nat.
Proof.
  intros Ho Hi.
  assert (K : exists idx' Pt' t',
             (if Rlt_dec rt t then
                let idx := S idx in
                let idx := if Nat.eqb idx (length (S_l c)) then (length (S_l c) - 1)%nat else idx in
                let '(Pt, rt, t) := sr_probe c s idx in
                Some (idx, Pt, t)
              else Some (idx, Pt, t)) = Some (idx', Pt', t') /\
             (idx' = idx \/ idx' = S idx) /\ (idx' < length (S_l c))%nat).
  { destruct (Rlt_dec rt t); cbv zeta.
    - destruct (Nat.eqb (S idx) (length (S_l c))) eqn:E.
      + apply Nat.eqb_eq in E.
        destruct (sr_probe c s (length (S_l c) - 1)) as [[P' r'] t'].
        exists (length (S_l c) - 1)%nat, P', t'; split; [reflexivity|]; split; [left|]; lia.
      + apply Nat.eqb_neq in E.
        destruct (sr_probe c s (S idx)) as [[P' r'] t'].
        exists (S idx), P', t'; split; [reflexivity|]; split; [right; reflexivity | lia].
    - exists idx, Pt, t; split; [reflexivity|]; split; [left; reflexivity | exact Hi]. }
  destruct fuel as [|fuel]; cbn [sr_seek]; rewrite Ho; exact K.
Qed.

(** On an open path with a valid current index, SR Advance always finishes, moves the index forward by at most one, keeps it in range, and keeps the path. *)
Theorem sr_open_path_advance_terminates (fuel : nat) (c : sr_ctl) (veh : vehicle)
    (Hopen : sr_isClosedPath c = false) (Hidx : (sr_idx_curr c < length (S_l c))%nat) :
  exists c' out, ChPathSteeringControllerSR_Advance fuel c veh = Some (c', out) /\
    (sr_idx_curr c' = sr_idx_curr c \/ sr_idx_curr c' = S (sr_idx_curr c)) /\
    (sr_idx_curr c' < length (S_l c'))%nat /\ S_l c' = S_l c /\ sr_isClosedPath c' = false.
Proof.
  unfold ChPathSteeringControllerSR_Advance; cbv zeta.
  destruct (sr_probe c (sr_sentinel c veh) (sr_idx_curr c)) as [[Pt0 rt0] t0].
  destruct (Rle_dec rt0 t0).
  - destruct (sr_seek_open fuel c (sr_sentinel c veh) (sr_idx_curr c) Pt0 rt0 t0 Hopen Hidx)
      as (idx' & Pt' & t' & Hs & Hi & Hl).
    rewrite Hs.
    eexists; eexists; split; [reflexivity|]; cbn.
    split; [exact Hi|]. split; [exact Hl|]. split; [reflexivity | exact Hopen].
  - eexists; eexists; split; [reflexivity|]; cbn.
    split; [left; reflexivity|]. split; [exact Hidx|]. split; [reflexivity | exact Hopen].
Qed.

Lemma sr_seek_closed (fuel : nat) (c : sr_ctl) (s : vec3) :
  sr_isClosedPath c = true ->
  forall idx Pt rt t idx' Pt' t',
  (idx < length (S_l c))%nat -> sr_probe c s idx = (Pt, rt, t) ->
  sr_seek fuel c s idx Pt rt t = Some (idx', Pt', t') ->
  (idx' < length (S_l c))%nat /\ exists rt', sr_probe c s idx' = (Pt', rt', t') /\ t' <= rt'.
Proof.
  intros Hc; induction fuel as [|fuel IH]; intros idx Pt rt t idx' Pt' t' Hi Hp Hs;
    cbn [sr_seek] in Hs; rewrite Hc in Hs.
  - destruct (Rlt_dec rt t); [discriminate|].
    injection Hs as <- <- <-.
    split; [exact Hi|]; exists rt; split; [exact Hp | lra].
  - destruct (Rlt_dec rt t).
    + cbv zeta in Hs.
      set (j := if Nat.eqb (S idx) (length (S_l c)) then 0%nat else S idx) in Hs.
      assert (Hj : (j < length (S_l c))%nat).
      { unfold j; destruct (Nat.eqb (S idx) (length (S_l c))) eqn:E;
          [lia | apply Nat.eqb_neq in E; lia]. }
      destruct (sr_probe c s j) as [[P2 r2] t2] eqn:Hp2.
      exact (IH j P2 r2 t2 idx' Pt' t' Hj Hp2 Hs).
    + injection Hs as <- <- <-.
      split; [exact Hi|]; exists rt; split; [exact Hp | lra].
Qed.

(** On a closed path, when SR Advance finishes, the new index is in range, the path is unchanged, and the target lies on the chosen segment, between its start and its end. *)
Theorem sr_closed_path_target_on_segment (fuel : nat) (c : sr_ctl) (veh : vehicle)
    (Hclosed : sr_isClosedPath c = true) (Hidx : (sr_idx_curr c < length (S_l c))%nat) :
  match ChPathSteeringControllerSR_Advance fuel c veh with
  | Some (c', _) =>
      (sr_idx_curr c' < length (S_l c))%nat /\ S_l c' = S_l c /\ R_l c' = R_l c /\
      R_lu c' = R_lu c /\
      exists t, 0 <= t <= vlength (nth (sr_idx_curr c') (R_l c) vzero) /\
        m_target (sr_base c') =
        vadd (nth (sr_idx_curr c') (S_l c) vzero) (vscale t (nth (sr_idx_curr c') (R_lu c) vzero))
  | None => True
  end.
Proof.
  unfold ChPathSteeringControllerSR_Advance; cbv zeta.
  destruct (sr_probe c (sr_sentinel c veh) (sr_idx_curr c)) as [[Pt0 rt0] t0] eqn:Hp.
  assert (Hsome : forall idx Pt t, (idx < length (S_l c))%nat ->
            (exists rt, sr_probe c (sr_sentinel c veh) idx = (Pt, rt, t) /\ t <= rt) ->
            (idx < length (S_l c))%nat /\ S_l c = S_l c /\ R_l c = R_l c /\ R_lu c = R_lu c /\
            exists t', 0 <= t' <= vlength (nth idx (R_l c) vzero) /\
              vadd (nth idx (S_l c) vzero) (vscale t (nth idx (R_lu c) vzero)) =
              vadd (nth idx (S_l c) vzero) (vscale t' (nth idx (R_lu c) vzero))).
  { intros idx Pt t Hi (rt & Hpr & Hle).
    unfold sr_probe in Hpr; injection Hpr as _ Hrt Ht.
    do 4 (split; [first [exact Hi | reflexivity]|]).
    exists t; split; [|reflexivity].
    split; [rewrite <- Ht; apply Rabs_pos | rewrite Hrt; exact Hle]. }
  destruct (Rle_dec rt0 t0).
  - destruct (sr_seek fuel c (sr_sentinel c veh) (sr_idx_curr c) Pt0 rt0 t0)
      as [[[idx' Pt'] t']|] eqn:Hs; [|exact I].
    destruct (sr_seek_closed fuel c (sr_sentinel c veh) Hclosed _ _ _ _ _ _ _ Hidx Hp Hs)
      as [Hi Hex].
    cbn. exact (Hsome idx' Pt' t' Hi Hex).
  - cbn. apply (Hsome (sr_idx_curr c) Pt0 t0 Hidx). exists rt0; split; [exact Hp | lra].
Qed.

Lemma sr_seek_closed_far (fuel : nat) (c : sr_ctl) (s : vec3) :
  sr_isClosedPath c = true ->
  (forall i, (i < length (S_l c))%nat -> let '(_, rt, t) := sr_probe c s i in rt < t) ->
  forall idx Pt rt t, (idx < length (S_l c))%nat -> rt < t ->
  sr_seek fuel c s idx Pt rt t = None.
Proof.
  intros Hc Hfar; induction fuel as [|fuel IH]; intros idx Pt rt t Hi Hlt;
    cbn [sr_seek]; rewrite Hc; destruct (Rlt_dec rt t) as [_|Hn]; try contradiction.
  - reflexivity.
  - cbv zeta.
    set (j := if Nat.eqb (S idx) (length (S_l c)) then 0%nat else S idx).
    assert (Hj : (j < length (S_l c))%nat).
    { unfold j; destruct (Nat.eqb (S idx) (length (S_l c))) eqn:E;
        [lia | apply Nat.eqb_neq in E; lia]. }
    pose proof (Hfar j Hj) as Hf.
    destruct (sr_probe c s j) as [[P2 r2] t2].
    apply IH; assumption.
Qed.

(** On a closed path where the sentinel projects beyond the end of every segment, the search loop of SR Advance never ends, whatever iteration bound is used. *)
Theorem sr_closed_path_search_never_ends (fuel : nat) (c : sr_ctl) (veh : vehicle)
    (Hclosed : sr_isClosedPath c = true) (Hidx : (sr_idx_curr c < length (S_l c))%nat)
    (Hfar : forall i, (i < length (S_l c))%nat ->
              let '(_, rt, t) := sr_probe c (sr_sentinel c veh) i in rt < t) :
  ChPathSteeringControllerSR_Advance fuel c veh = None.
Proof.
  unfold ChPathSteeringControllerSR_Advance; cbv zeta.
  pose proof (Hfar _ Hidx) as H0.
  destruct (sr_probe c (sr_sentinel c veh) (sr_idx_curr c)) as [[Pt0 rt0] t0].
  destruct (Rle_dec rt0 t0) as [_|Hn]; [|lra].
  rewrite (sr_seek_closed_far fuel c _ Hclosed Hfar _ _ _ _ Hidx H0); reflexivity.
Qed.

(** Below the minimum speed umin, SR Advance keeps the steering angle unchanged and returns delta / delta_max. *)
Theorem sr_holds_delta_below_umin (fuel : nat) (c : sr_ctl) (veh : vehicle)
    (Hu : veh_speed veh < sr_umin c) :
  match ChPathSteeringControllerSR_Advance fuel c veh with
  | Some (c', out) => sr_delta c' = sr_delta c /\ out = sr_delta c / sr_delta_max c
  | None => True
  end.
Proof.
  destruct (ChPathSteeringControllerSR_Advance fuel c veh) as [[c' out]|] eqn:E; [|exact I].
  destruct (sr_advance_some fuel c veh c' out E) as (Ho & Hm & _ & _ & _ & err & Hd).
  destruct (Rle_dec (sr_umin c) (veh_speed veh)) as [Hc|_]; [lra|].
  rewrite Ho, Hm, Hd; split; reflexivity.
Qed.

(** Witnesses *)

Lemma sr_sentinel_far : sr_sentinel sr_loop veh_far = V3 10 0 0.
Proof.
  unfold sr_sentinel, sr_loop, veh_far; cbv zeta; cbn [sr_delta sr_umin sr_Tp veh_speed].
  destruct (Req_EM_T 0 0) as [_|Hn]; [|contradiction Hn; reflexivity].
  destruct (Rlt_dec 2 0) as [Hn|_]; [lra|].
  apply vec_ext; vec_simpl.
  all: lra.
Qed.

Lemma sr_closed_path_search_never_ends_witness :
  sr_isClosedPath sr_loop = true /\ (sr_idx_curr sr_loop < length (S_l sr_loop))%nat /\
  ChPathSteeringControllerSR_Advance 5 sr_loop veh_far = None.
Proof.
  assert (H1 : sr_isClosedPath sr_loop = true) by reflexivity.
  assert (H2 : (sr_idx_curr sr_loop < length (S_l sr_loop))%nat) by (cbn; lia).
  assert (H3 : forall i, (i < length (S_l sr_loop))%nat ->
                 let '(_, rt, t) := sr_probe sr_loop (sr_sentinel sr_loop veh_far) i in rt < t).
  { intros i Hi; rewrite sr_sentinel_far; cbn in Hi.
    destruct i as [|[|i]]; [| |lia]; unfold sr_probe; cbn [nth S_l R_l R_lu sr_loop];
      rewrite vlength_V3, (sqrt_of_square _ 1) by lra;
      unfold vdot, vsub; cbn [vx vy vz];
      unfold Rabs; destruct (Rcase_abs _); lra. }
  split; [exact H1|]; split; [exact H2|].
  exact (sr_closed_path_search_never_ends 5 sr_loop veh_far H1 H2 H3).
Defined.

Lemma log_written_only_if_started_witness :
  run_log data_log_init [LogStart] = Some (DataLog (Some []) true) /\
  (WriteOutputFile (DataLog (Some []) true) = None <-> ~ In LogStart [LogStart]).
Proof.
  assert (H : run_log data_log_init [LogStart] = Some (DataLog (Some []) true)) by reflexivity.
  split; [exact H | exact (log_written_only_if_started [LogStart] _ H)].
Defined.

Lemma stanley_heading_error_direction_only_witness :
  stanley_CalcHeadingError (vadd (vscale 2 (V3 1 0 0)) (vscale 1 wf_vertical))
                           (vadd (vscale 3 (V3 0 1 0)) (vscale (-1) wf_vertical)) =
  stanley_CalcHeadingError (V3 1 0 0) (V3 0 1 0) /\
  stanley_CalcHeadingError (V3 0 1 0) (V3 1 0 0) = - stanley_CalcHeadingError (V3 1 0 0) (V3 0 1 0).
Proof.
  apply stanley_heading_error_direction_only; lra.
Defined.

Lemma sr_path_points_closed_witness :
  let '(Sl, Rl, Rlu) := sr_CalcPathPoints true [V3 0 0 0; V3 1 0 0] in
  Sl = [V3 0 0 0; V3 1 0 0] /\ length Rl = 2%nat /\ length Rlu = 2%nat /\
  (forall i, (i < 2)%nat ->
     vadd (nth i Sl vzero) (nth i Rl vzero) = nth (S i mod 2) Sl vzero) /\
  vsum Rl = vzero.
Proof.
  exact (sr_path_points_closed [V3 0 0 0; V3 1 0 0] (le_S _ _ (le_n 1))).
Defined.

Lemma sr_path_points_open_witness :
  let '(Sl, Rl, Rlu) := sr_CalcPathPoints false [V3 0 0 0; V3 1 0 0; V3 1 1 0] in
  Sl = [V3 0 0 0; V3 1 0 0; V3 1 1 0] /\ length Rl = 3%nat /\ length Rlu = 3%nat /\
  (forall i, (i < 3 - 1)%nat ->
     vadd (nth i Sl vzero) (nth i Rl vzero) = nth (S i) Sl vzero) /\
  nth (3 - 1) Rl vzero = nth (3 - 2) Rl vzero.
Proof.
  exact (sr_path_points_open [V3 0 0 0; V3 1 0 0; V3 1 1 0] (le_S _ _ (le_n 2))).
Defined.

Lemma sr_path_directions_unit_witness :
  let '(_, Rl, Rlu) := sr_CalcPathPoints false [V3 0 0 0; V3 3 4 0] in
  forall i, (i < 2)%nat ->
    vlength (nth i Rlu vzero) = 1 /\
    (vlength (nth i Rl vzero) <> 0 ->
     nth i Rlu vzero = vscale (/ vlength (nth i Rl vzero)) (nth i Rl vzero)).
Proof.
  exact (sr_path_directions_unit false [V3 0 0 0; V3 3 4 0] (le_n 2)).
Defined.

Lemma sr_open_path_advance_terminates_witness :
  exists c' out,
    ChPathSteeringControllerSR_Advance 0 (ChPathSteeringControllerSR_ctor [vzero; V3 1 0 0] false (1 / 2) 1)
      veh_origin = Some (c', out) /\
    (sr_idx_curr c' = 0%nat \/ sr_idx_curr c' = 1%nat) /\
    (sr_idx_curr c' < length (S_l c'))%nat /\ S_l c' = [vzero; V3 1 0 0] /\
    sr_isClosedPath c' = false.
Proof.
  apply (sr_open_path_advance_terminates 0
           (ChPathSteeringControllerSR_ctor [vzero; V3 1 0 0] false (1 / 2) 1) veh_origin).
  - reflexivity.
  - cbn; lia.
Defined.

Lemma sr_closed_path_target_on_segment_witness :
  match ChPathSteeringControllerSR_Advance 4 sr_loop veh_origin with
  | Some (c', _) =>
      (sr_idx_curr c' < length (S_l sr_loop))%nat /\ S_l c' = S_l sr_loop /\
      R_l c' = R_l sr_loop /\ R_lu c' = R_lu sr_loop /\
      exists t, 0 <= t <= vlength (nth (sr_idx_curr c') (R_l sr_loop) vzero) /\
        m_target (sr_base c') =
        vadd (nth (sr_idx_curr c') (S_l sr_loop) vzero)
             (vscale t (nth (sr_idx_curr c') (R_lu sr_loop) vzero))
  | None => True
  end.
Proof.
  apply (sr_closed_path_target_on_segment 4 sr_loop veh_origin).
  - reflexivity.
  - cbn; lia.
Defined.

(** ** SR inputs on a two-point path *)

Lemma normalize_x_unit : vnormalize (V3 1 0 0) = V3 1 0 0.
Proof.
  unfold vnormalize; rewrite vlength_V3.
  rewrite (sqrt_of_square _ 1) by lra.
  destruct (Req_EM_T 1 0) as [E|_]; [lra|].
  vec_simpl; f_equal; field.
Qed.

Lemma sr_tuned_eq :
  sr_tuned = SrCtl ChSteeringController_default false 1 0 (1 / 2) 1 0 (1 / 2) 2 0
                   [vzero; V3 1 0 0] [V3 1 0 0; V3 1 0 0] [V3 1 0 0; V3 1 0 0].
Proof.
  assert (E : vsub (V3 1 0 0) vzero = V3 1 0 0) by (apply vec_ext; vec_simpl; ring).
  assert (K : ChClamp 0 0 5 = 0) by (apply ChClamp_inside; lra).
  unfold sr_tuned, sr_fresh, ChPathSteeringControllerSR_SetGains,
    ChPathSteeringControllerSR_ctor, sr_CalcPathPoints; cbn -[vsub vnormalize ChClamp Rabs].
  rewrite E, normalize_x_unit, K, Rabs_R1; reflexivity.
Qed.

Lemma sr_tuned_step :
  exists c1, ChPathSteeringControllerSR_Advance 0 sr_tuned veh_left = Some (c1, 1 / 2) /\
    sr_delta c1 = 1 / 4 /\ sr_Klat c1 = 1 /\ sr_umin c1 = 2 /\ sr_delta_max c1 = 1 / 2 /\
    sr_isClosedPath c1 = false /\ sr_idx_curr c1 = 0%nat /\ S_l c1 = S_l sr_tuned.
Proof.
  rewrite sr_tuned_eq.
  unfold ChPathSteeringControllerSR_Advance, sr_sentinel, sr_probe; cbv zeta.
  cbn [sr_delta sr_umin sr_Tp sr_idx_curr S_l R_l R_lu sr_isClosedPath sr_delta_max sr_Klat
       veh_speed veh_left nth].
  destruct (Req_EM_T 0 0) as [_|Hn]; [|contradiction Hn; reflexivity].
  destruct (Rlt_dec 2 2) as [Hn|_]; [lra|].
  assert (Hs : TransformPointLocalToParent (chassis_frame veh_left) (vscale (2 * (1 / 2)) wf_forward)
               = V3 1 (- (1 / 4)) 0) by (unfold veh_left; apply vec_ext; vec_simpl; lra).
  assert (Hp : vsub (V3 1 (- (1 / 4)) 0) vzero = V3 1 (- (1 / 4)) 0) by (unfold veh_left; apply vec_ext; vec_simpl; lra).
  assert (Hr : vlength (V3 1 0 0) = 1) by (rewrite vlength_V3; apply sqrt_of_square; lra).
  assert (Ht : Rabs (vdot (V3 1 (- (1 / 4)) 0) (V3 1 0 0)) = 1)
    by (unfold vdot; cbn; rewrite Rabs_right; lra).
  rewrite Hs, Hp, Hr, Ht.
  destruct (Rle_dec 1 1) as [_|Hn]; [|lra].
  cbn [sr_seek]. destruct (Rlt_dec 1 1) as [Hn|_]; [lra|].
  assert (Hd : ChClamp (0 + 1 * vdot (V3 1 (- (1 / 4)) 0) (vcross (V3 1 0 0) wf_vertical))
                 (- (1 / 2)) (1 / 2) = 1 / 4).
  { rewrite ChClamp_inside; vec_simpl; lra. }
  destruct (Rle_dec 2 2) as [_|Hn]; [|lra].
  cbn [nth]. rewrite Hd.
  replace (1 / 4 / (1 / 2)) with (1 / 2) by field.
  eexists; split; [reflexivity|]; cbn; repeat split; reflexivity.
Qed.

Lemma sr_advance_open_some (fuel : nat) (c : sr_ctl) (veh : vehicle) :
  sr_isClosedPath c = false -> (sr_idx_curr c < length (S_l c))%nat ->
  exists c' out, ChPathSteeringControllerSR_Advance fuel c veh = Some (c', out).
Proof.
  intros Ho Hi; unfold ChPathSteeringControllerSR_Advance; cbv zeta.
  destruct (sr_probe c (sr_sentinel c veh) (sr_idx_curr c)) as [[Pt0 rt0] t0].
  destruct (Rle_dec rt0 t0).
  - destruct (sr_seek_open fuel c (sr_sentinel c veh) (sr_idx_curr c) Pt0 rt0 t0 Ho Hi)
      as (idx' & Pt' & t' & Hs & _).
    rewrite Hs; eexists; eexists; reflexivity.
  - eexists; eexists; reflexivity.
Qed.

(** C9 (counterexample). With the negative maximum steering angle [-1/2]
    (accepted by the constructor), [Reset] zeroes both gains, and yet the
    next [Advance] at speed [2 >= umin] moves [delta] from 0 to [1/2]:
    [ChClamp(0, 1/2, -1/2)] is [1/2]. *)
Lemma sr_reset_negative_angle_moves_delta :
  let c0 := ChPathSteeringControllerSR_Reset sr_neg veh_origin in
  sr_delta_max sr_neg = - (1 / 2) /\ sr_delta sr_neg = 0 /\ sr_Klat c0 = 0 /\ sr_Kug c0 = 0 /\
  exists c', sr_run 0 c0 [veh_left] = Some c' /\ sr_delta c' = 1 / 2.
Proof.
  cbv zeta.
  do 4 (split; [reflexivity|]).
  destruct (sr_advance_open_some 0 (ChPathSteeringControllerSR_Reset sr_neg veh_origin) veh_left
              eq_refl ltac:(cbn; lia)) as (c' & out & H).
  exists c'; split; [cbn [sr_run]; rewrite H; reflexivity|].
  destruct (sr_advance_some _ _ _ _ _ H) as (_ & _ & _ & _ & _ & err & He).
  rewrite He.
  change (sr_umin (ChPathSteeringControllerSR_Reset sr_neg veh_origin)) with 2.
  change (veh_speed veh_left) with 2.
  change (sr_delta (ChPathSteeringControllerSR_Reset sr_neg veh_origin)) with 0.
  change (sr_Klat (ChPathSteeringControllerSR_Reset sr_neg veh_origin)) with 0.
  change (sr_delta_max (ChPathSteeringControllerSR_Reset sr_neg veh_origin)) with (- (1 / 2)).
  destruct (Rle_dec 2 2) as [_|Hn]; [|lra].
  unfold ChClamp.
  destruct (Rlt_dec (0 + 0 * err) (- - (1 / 2))) as [_|Hn]; [lra|].
  exfalso; apply Hn; lra.
Qed.

Lemma sr_reset_discards_gains_witness :
  0 <= sr_delta_max sr_tuned /\ Rabs (sr_delta sr_tuned) <= sr_delta_max sr_tuned /\
  sr_Klat sr_tuned = 1 /\
  (exists c1, ChPathSteeringControllerSR_Advance 0 sr_tuned veh_left = Some (c1, 1 / 2) /\
              sr_delta c1 = 1 / 4) /\
  exists c', sr_run 0 (ChPathSteeringControllerSR_Reset sr_tuned veh_origin) [veh_left] = Some c' /\
             sr_delta c' = sr_delta sr_tuned /\ sr_Klat c' = 0.
Proof.
  assert (H1 : 0 <= sr_delta_max sr_tuned) by (rewrite sr_tuned_eq; cbn; lra).
  assert (H2 : Rabs (sr_delta sr_tuned) <= sr_delta_max sr_tuned)
    by (rewrite sr_tuned_eq; cbn; rewrite Rabs_R0; lra).
  split; [exact H1|]; split; [exact H2|]; split; [rewrite sr_tuned_eq; reflexivity|].
  split.
  { destruct sr_tuned_step as (c1 & Ha & Hd & _); exists c1; split; [exact Ha | exact Hd]. }
  destruct (sr_reset_discards_gains sr_tuned veh_origin H1 H2) as (_ & _ & _ & _ & _ & _ & Hrun).
  destruct (sr_advance_open_some 0 (ChPathSteeringControllerSR_Reset sr_tuned veh_origin) veh_left
              ltac:(rewrite sr_tuned_eq; reflexivity) ltac:(rewrite sr_tuned_eq; cbn; lia))
    as (c' & out & H).
  assert (Hr : sr_run 0 (ChPathSteeringControllerSR_Reset sr_tuned veh_origin) [veh_left] = Some c')
    by (cbn [sr_run]; rewrite H; reflexivity).
  exists c'; split; [exact Hr | exact (Hrun 0%nat [veh_left] c' Hr)].
Defined.

Lemma sr_holds_delta_below_umin_witness :
  exists c1, ChPathSteeringControllerSR_Advance 0 sr_tuned veh_left = Some (c1, 1 / 2) /\
    sr_delta c1 = 1 / 4 /\ sr_Klat c1 = 1 /\ veh_speed veh_origin < sr_umin c1 /\
    exists c' out, ChPathSteeringControllerSR_Advance 0 c1 veh_origin = Some (c', out) /\
      sr_delta c' = 1 / 4 /\ out = 1 / 2.
Proof.
  destruct sr_tuned_step as (c1 & Ha & Hd & Hk & Hu & Hm & Ho & Hi & Hl).
  assert (Hs : veh_speed veh_origin < sr_umin c1) by (rewrite Hu; cbn; lra).
  exists c1; split; [exact Ha|]; split; [exact Hd|]; split; [exact Hk|]; split; [exact Hs|].
  destruct (sr_advance_open_some 0 c1 veh_origin Ho
              ltac:(rewrite Hi, Hl, sr_tuned_eq; cbn; lia)) as (c' & out & H).
  pose proof (sr_holds_delta_below_umin 0 c1 veh_origin Hs) as K.
  rewrite H in K; destruct K as [K1 K2].
  exists c', out; split; [exact H|]; split; [rewrite K1; exact Hd|].
  rewrite K2, Hd, Hm; field.
Defined.

Lemma log_pause_resume_witness :
  run_log (DataLog (Some [(0, vzero, vzero)]) true) (LogStart :: map LogAdvance [(1, vzero, vzero)])
    = Some (DataLog (Some [(0, vzero, vzero); (1, vzero, vzero)]) true) /\
  run_log (DataLog (Some [(0, vzero, vzero)]) true) (LogStop :: map LogAdvance [(1, vzero, vzero)])
    = Some (StopDataCollection (DataLog (Some [(0, vzero, vzero)]) true)) /\
  StartDataCollection (StopDataCollection (DataLog (Some [(0, vzero, vzero)]) true))
    = DataLog (Some [(0, vzero, vzero)]) true.
Proof.
  assert (H : m_collect (DataLog (Some [(0, vzero, vzero)]) true) = true ->
              m_csv (DataLog (Some [(0, vzero, vzero)]) true) <> None)
    by (intros _; cbn; discriminate).
  exact (log_pause_resume (DataLog (Some [(0, vzero, vzero)]) true) [(1, vzero, vzero)] H).
Defined.

